(** * pyedit: the interactive console, the recent-files list and the script runner

    A shallow embedding of the parts of [src/pyedit.py] that carry logic of
    their own: [InteractiveConsole] (prompt, read-only scrollback, command
    history), [ScriptRunner.run_script], [SettingsManager] (saving and
    reading back the lists), and of [PythonFocusedEditorController] the
    recent-files list, the font size, the status bar with the tab title,
    and Replace All.

    Characters are the 256 code points of Latin-1, written as [ascii]; a
    Python [str] and the plain text of a Qt document are both [list ascii]. *)

From Stdlib Require Import Ascii String List ZArith Lia Bool Arith DecimalString.
Import ListNotations.

(** ** Python strings and lists *)

Module Py.

Definition str := list ascii.

(** A string literal of the source. *)
Definition lit (s : string) : str := list_ascii_of_string s.

(** [str.isspace] on one character: the white space of Unicode below
    U+0100, that is TAB..CR, FS..US, SPACE, NEL and NBSP. *)
Definition isspace (c : ascii) : bool :=
  let n := nat_of_ascii c in
  ((9 <=? n) && (n <=? 13)) || ((28 <=? n) && (n <=? 32))
  || (n =? 133) || (n =? 160).

Fixpoint lstrip (s : str) : str :=
  match s with
  | [] => []
  | c :: r => if isspace c then lstrip r else s
  end.

Definition rstrip (s : str) : str := rev (lstrip (rev s)).

(** [s.strip()] *)
Definition strip (s : str) : str := rstrip (lstrip s).

(** [s[n:]] for [n >= 0] *)
Definition slice_from (n : nat) (s : str) : str := skipn n s.

(** [l[i]]: negative indices count from the end, anything outside
    [-len(l) <= i < len(l)] raises IndexError ([None]). *)
Definition getitem {A} (l : list A) (i : Z) : option A :=
  let n := Z.of_nat (length l) in
  if (0 <=? i)%Z && (i <? n)%Z then nth_error l (Z.to_nat i)
  else if (- n <=? i)%Z && (i <? 0)%Z then nth_error l (Z.to_nat (n + i))
  else None.

(** [bool(s)] for a string: non-empty. *)
Definition truthy (s : str) : bool :=
  match s with [] => false | _ => true end.

Definition str_eqb (a b : str) : bool :=
  if list_eq_dec ascii_dec a b then true else false.

(** [x in l] for a list of strings. *)
Fixpoint contains (x : str) (l : list str) : bool :=
  match l with
  | [] => false
  | y :: r => str_eqb y x || contains x r
  end.

(** [l.remove(x)] when [x in l]: drops the first element equal to [x]. *)
Fixpoint remove (x : str) (l : list str) : list str :=
  match l with
  | [] => []
  | y :: r => if str_eqb y x then r else y :: remove x r
  end.

(** [s.startswith(p)] *)
Fixpoint startswith (s p : str) : bool :=
  match p, s with
  | [], _ => true
  | _ :: _, [] => false
  | a :: p', b :: s' => Ascii.eqb a b && startswith s' p'
  end.

(** [s.endswith(p)] *)
Definition endswith (s p : str) : bool := startswith (rev s) (rev p).

(** [s.removesuffix(p)] *)
Definition removesuffix (s p : str) : str :=
  if endswith s p then firstn (length s - length p) s else s.

(** [s.replace(old, new)] for a non-empty [old]: occurrences are taken
    from the left and do not overlap; [skip] counts the characters of the
    occurrence just replaced that are still to be passed over. *)
Fixpoint replace_from (old new : str) (skip : nat) (s : str) : str :=
  match s with
  | [] => []
  | c :: r =>
      match skip with
      | S k => replace_from old new k r
      | O =>
          if startswith s old
          then new ++ replace_from old new (length old - 1) r
          else c :: replace_from old new 0 r
      end
  end.

(** [s.replace(old, new)]; an empty [old] matches before every character
    and at the end. *)
Definition replace (s old new : str) : str :=
  match old with
  | [] => new ++ flat_map (fun c => c :: new) s
  | _ :: _ => replace_from old new 0 s
  end.

(** [old in s] for strings. *)
Definition occurs (old s : str) : Prop := exists a b, s = a ++ old ++ b.

(** [s.lower()] below U+0100: A..Z and the accented capitals move up by 32. *)
Definition lower_char (c : ascii) : ascii :=
  let n := nat_of_ascii c in
  if ((65 <=? n) && (n <=? 90)) || ((192 <=? n) && (n <=? 214))
     || ((216 <=? n) && (n <=? 222))
  then ascii_of_nat (n + 32) else c.

Definition lower (s : str) : str := map lower_char s.

(** [str(n)] for an integer [n >= 0]. *)
Definition str_of_nat (n : nat) : str :=
  lit (NilZero.string_of_uint (Nat.to_uint n)).

End Py.

(** ** The toolkit's text document

    The document of a [QPlainTextEdit] is identified with its plain text:
    blocks (lines) are separated by a line feed.  Line wrapping is off
    ([setLineWrapMode(NoWrap)] in [__init__]), so [StartOfLine] and
    [EndOfLine] are the bounds of the block.  A cursor is a pair of offsets
    (anchor, position) into that text. *)

Module Qt.

Import Py.

Definition LF : ascii := "010"%char.
Definition CR : ascii := "013"%char.

Definition is_LF (c : ascii) : bool := Ascii.eqb c LF.
Definition is_CR (c : ascii) : bool := Ascii.eqb c CR.

(** What [QTextCursor.insertText] adds to the plain text: a carriage
    return starts a new block like a line feed does, and CR LF counts as
    one separator. *)
Fixpoint plain (s : str) : str :=
  match s with
  | [] => []
  | c :: r =>
      if is_CR c then
        match r with
        | d :: r' => if is_LF d then LF :: plain r' else LF :: plain r
        | [] => [LF]
        end
      else c :: plain r
  end.

(** The characters before the first line feed. *)
Fixpoint upto_LF (s : str) : str :=
  match s with
  | [] => []
  | c :: r => if is_LF c then [] else c :: upto_LF r
  end.

(** [movePosition(StartOfLine)] from offset [p]. *)
Definition block_start (t : str) (p : nat) : nat :=
  p - length (upto_LF (rev (firstn p t))).

(** [movePosition(EndOfLine)] from offset [p]. *)
Definition block_end (t : str) (p : nat) : nat :=
  p + length (upto_LF (skipn p t)).

(** The text between two offsets ([selectedText] of a selection inside
    one block). *)
Definition sub (t : str) (s e : nat) : str := firstn (e - s) (skipn s t).

(** How the document moves the offset [p] of any cursor on it when [n]
    characters from [s] on are removed, and when [n] characters are
    inserted at [s]. *)
Definition after_remove (s n p : nat) : nat :=
  if p <? s then p else if p <? s + n then s else p - n.

Definition after_insert (s n p : nat) : nat :=
  if p <? s then p else p + n.

(** [QChar.isPrint] below U+0100. *)
Definition isPrint (c : ascii) : bool :=
  let n := nat_of_ascii c in
  ((32 <=? n) && (n <=? 126)) || ((160 <=? n) && negb (n =? 173)).

Definition TAB : ascii := "009"%char.

(** The event text that a text edit takes as input: a format character
    (below U+0100 the soft hyphen U+00AD), a printable character, or a
    tab. *)
Definition isAcceptableInput (c : ascii) : bool :=
  (nat_of_ascii c =? 173) || isPrint c || Ascii.eqb c TAB.

(** The key events that are modelled, all without modifiers.  Chords that
    edit or select (paste, cut, undo, Shift with an arrow) are not among
    them. *)
Inductive Key :=
| Key_Up | Key_Down | Key_Return | Key_Enter
| Key_Backspace | Key_Delete
| Key_Left | Key_Right | Key_Home | Key_End
| Key_Char (ch : ascii)   (* a key whose event text is [ch] *)
| Key_Other.              (* a key the default handling ignores *)

End Qt.

(** ** InteractiveConsole *)

Module Console.

Import Py Qt.

Record t := mk {
  text : str;                      (* document().toPlainText() *)
  anchor : nat;                    (* textCursor().anchor() *)
  position : nat;                  (* textCursor().position() *)
  read_only : bool;                (* isReadOnly() *)
  prompt : str;
  current_line_start_pos : nat;
  history : list str;
  history_index : Z;
  emitted : list str               (* command_entered emissions, oldest first *)
}.

Definition with_doc (c : t) (tx : str) (a p : nat) : t :=
  mk tx a p (read_only c) (prompt c) (current_line_start_pos c)
     (history c) (history_index c) (emitted c).

Definition with_prompt (c : t) (pr : str) : t :=
  mk (text c) (anchor c) (position c) (read_only c) pr
     (current_line_start_pos c) (history c) (history_index c) (emitted c).

Definition with_line_start (c : t) (n : nat) : t :=
  mk (text c) (anchor c) (position c) (read_only c) (prompt c) n
     (history c) (history_index c) (emitted c).

Definition with_history (c : t) (h : list str) : t :=
  mk (text c) (anchor c) (position c) (read_only c) (prompt c)
     (current_line_start_pos c) h (history_index c) (emitted c).

Definition with_history_index (c : t) (i : Z) : t :=
  mk (text c) (anchor c) (position c) (read_only c) (prompt c)
     (current_line_start_pos c) (history c) i (emitted c).

Definition with_read_only (c : t) (b : bool) : t :=
  mk (text c) (anchor c) (position c) b (prompt c)
     (current_line_start_pos c) (history c) (history_index c) (emitted c).

(** [command_entered.emit(command)].  The connected slot hands the
    command to the script's standard input and does not touch the
    console. *)
Definition emit (c : t) (command : str) : t :=
  mk (text c) (anchor c) (position c) (read_only c) (prompt c)
     (current_line_start_pos c) (history c) (history_index c)
     (emitted c ++ [command]).

(** [document().characterCount()]: the text and the final separator. *)
Definition characterCount (c : t) : nat := length (text c) + 1.

(** *** Edits through cursors (they ignore the read-only flag) *)

(** A cursor copy selecting [s, e) calls [removeSelectedText]. *)
Definition remove_range (c : t) (s e : nat) : t :=
  with_doc c (firstn s (text c) ++ skipn e (text c))
           (after_remove s (e - s) (anchor c))
           (after_remove s (e - s) (position c)).

(** A cursor copy at [s] without selection calls [insertText(x)]. *)
Definition insert_at (c : t) (s : nat) (x : str) : t :=
  with_doc c (firstn s (text c) ++ plain x ++ skipn s (text c))
           (after_insert s (length (plain x)) (anchor c))
           (after_insert s (length (plain x)) (position c)).

(** [self.insertPlainText(x)]: the widget's own cursor inserts [x] in
    place of its selection. *)
Definition insertPlainText (c : t) (x : str) : t :=
  let lo := Nat.min (anchor c) (position c) in
  let hi := Nat.max (anchor c) (position c) in
  with_doc c (firstn lo (text c) ++ plain x ++ skipn hi (text c))
           (lo + length (plain x)) (lo + length (plain x)).

(** [moveCursor(End)] / [setPosition(n)] followed by [setTextCursor]. *)
Definition set_cursor (c : t) (n : nat) : t := with_doc c (text c) n n.

(** *** The methods of the class *)

Definition appendPlainText (c : t) (x : str) : t :=
  let c1 := insert_at c (length (text c)) x in
  set_cursor c1 (length (text c1)).

Definition setPrompt (c : t) (new_prompt : str) : t :=
  let c1 := with_prompt c new_prompt in
  let c2 := with_line_start c1 (position c1 + length (prompt c1)) in
  let c3 := appendPlainText c2 (prompt c2) in
  set_cursor c3 (length (text c3)).

(** [super().keyPressEvent(event)]: the default handling of
    [QPlainTextEdit], for the keys of [Key].  A read-only widget has no
    keyboard interaction with its text.  Left and Right collapse a
    selection to its start and its end. *)
Definition QPlainTextEdit_keyPressEvent (c : t) (k : Key) : t :=
  if read_only c then c
  else
    let lo := Nat.min (anchor c) (position c) in
    let hi := Nat.max (anchor c) (position c) in
    let p := position c in
    match k with
    | Key_Char ch =>
        if isAcceptableInput ch then insertPlainText c [ch] else c
    | Key_Backspace =>
        if lo <? hi then set_cursor (remove_range c lo hi) lo
        else if 0 <? p then set_cursor (remove_range c (p - 1) p) (p - 1)
        else c
    | Key_Delete =>
        if lo <? hi then set_cursor (remove_range c lo hi) lo
        else if p <? length (text c) then set_cursor (remove_range c p (p + 1)) p
        else c
    | Key_Left =>
        if lo <? hi then set_cursor c lo else set_cursor c (p - 1)
    | Key_Right =>
        if lo <? hi then set_cursor c hi
        else if p <? length (text c) then set_cursor c (p + 1)
        else set_cursor c p
    | Key_Home => set_cursor c (block_start (text c) p)
    | Key_End => set_cursor c (block_end (text c) p)
    | _ => c
    end.

(** [None] stands for the IndexError that [self.history[self.history_index]]
    raises for an index out of range. *)
Definition _handle_history_navigation (c : t) (k : Key) : option t :=
  match history c with
  | [] => Some c
  | _ :: _ =>
      let n := Z.of_nat (length (history c)) in
      let i := history_index c in
      let i' :=
        match k with
        | Key_Up => if (i <? n - 1)%Z then (i + 1)%Z else i
        | Key_Down => if (i >? 0)%Z then (i - 1)%Z else (-1)%Z
        | _ => i
        end in
      let c1 := with_history_index c i' in
      let s := block_start (text c1) (position c1) in
      let e := block_end (text c1) s in
      let c2 := remove_range c1 s e in
      let c3 := insert_at c2 s (prompt c2) in
      if (i' =? -1)%Z then Some c3
      else
        match getitem (history c3) i' with
        | Some h => Some (insertPlainText c3 h)
        | None => None
        end
  end.

(** The command that Enter reads off the line of the cursor. *)
Definition command_of (c : t) : str :=
  let s := block_start (text c) (position c) in
  let e := block_end (text c) s in
  strip (slice_from (length (prompt c)) (strip (sub (text c) s e))).

Definition _handle_command_entry (c : t) : t :=
  let command := command_of c in
  let c1 :=
    if truthy command then
      match history c with
      | [] => with_history c (command :: history c)
      | h0 :: _ =>
          if negb (str_eqb h0 command)
          then with_history c (command :: history c)
          else c
      end
    else c in
  let c2 := with_history_index c1 (-1)%Z in
  let c3 := appendPlainText c2 [LF] in
  let c4 := emit c3 command in
  setPrompt c4 (prompt c4).

(** The guard at the head of [keyPressEvent]. *)
Definition restrict_cursor (c : t) : t :=
  if position c <? current_line_start_pos c
  then set_cursor c (characterCount c - 1)
  else c.

(** [None]: the event handler ended with an exception. *)
Definition keyPressEvent (c : t) (k : Key) : option t :=
  let c1 := restrict_cursor c in
  match k with
  | Key_Up | Key_Down => _handle_history_navigation c1 k
  | Key_Return | Key_Enter => Some (_handle_command_entry c1)
  | _ => Some (QPlainTextEdit_keyPressEvent c1 k)
  end.

(** A run of key events; an exception ends it. *)
Fixpoint keyPressEvents (c : t) (ks : list Key) : option t :=
  match ks with
  | [] => Some c
  | k :: r =>
      match keyPressEvent c k with
      | Some c' => keyPressEvents c' r
      | None => None
      end
  end.

(** The widget before [__init__] issues its first prompt, and after it. *)
Definition blank : t := mk [] 0 0 true [] 0 [] (-1)%Z [].

Definition init : t := setPrompt blank (lit ">>> ").

(** [QPlainTextEdit.clear()] and [setReadOnly(b)], as the controller calls
    them on the console. *)
Definition clear (c : t) : t := with_doc c [] 0 0.

Definition setReadOnly (c : t) (b : bool) : t := with_read_only c b.

(** The console as [_run_with_debugger] sets it up: editable, cleared,
    with the debugger's prompt. *)
Definition debug_console : t :=
  setPrompt (clear (setReadOnly init false)) (lit "(pdb) ").

(** *** Notions used to state the properties *)

(** The editable region [[line_start, end)] of the buffer. *)
Definition editable_region (c : t) : nat * nat :=
  (current_line_start_pos c, length (text c)).

(** The current line: the buffer from [line_start] to its end. *)
Definition current_line (c : t) : str :=
  skipn (current_line_start_pos c) (text c).

Definition no_CR (s : str) : bool := forallb (fun ch => negb (is_CR ch)) s.

Definition no_break (s : str) : bool :=
  forallb (fun ch => negb (is_LF ch || is_CR ch)) s.

(** Empty, or ending in a line feed. *)
Definition ends_line (s : str) : bool :=
  match rev s with
  | [] => true
  | ch :: _ => is_LF ch
  end.

(** The console shows the scrollback [sb], then on a line of its own the
    prompt and the input typed so far, and [line_start] separates prompt
    and input; an existing selection started on that line. *)
Definition at_prompt (c : t) (sb input : str) : Prop :=
  text c = sb ++ prompt c ++ input /\
  current_line_start_pos c = length sb + length (prompt c) /\
  no_break (prompt c ++ input) = true /\
  ends_line sb = true /\
  length sb <= anchor c <= length (text c) /\
  position c <= length (text c).

(** The prompt does not begin with white space. *)
Definition prompt_ok (pr : str) : bool :=
  match pr with
  | [] => true
  | ch :: _ => negb (isspace ch)
  end.

(** A history entry: not empty, and its own trimmed form. *)
Definition entry_ok (h : str) : Prop := h <> [] /\ strip h = h.

Definition index_ok (c : t) : Prop :=
  (-1 <= history_index c <= Z.of_nat (length (history c)) - 1)%Z.

(** [history[history_index]], or the empty line for the index -1. *)
Definition recalled (c : t) : str :=
  if (history_index c =? -1)%Z then []
  else nth (Z.to_nat (history_index c)) (history c) [].

(** Return or Enter. *)
Definition is_enter (k : Key) : bool :=
  match k with
  | Key_Return | Key_Enter => true
  | _ => false
  end.

(** No entry equals the one right behind it. *)
Fixpoint no_repeat (h : list str) : Prop :=
  match h with
  | a :: (b :: _) as r => a <> b /\ no_repeat r
  | _ => True
  end.

End Console.

(** ** PythonFocusedEditorController: the recent-files list *)

Module Controller.

Import Py.

(** The list operations of [_add_to_recent_files]; the menu refresh that
    follows them only displays the list. *)
Definition _add_to_recent_files (recent_files : list str) (file_path : str)
  : list str :=
  let l1 :=
    if contains file_path recent_files
    then remove file_path recent_files
    else recent_files in
  let l2 := file_path :: l1 in
  firstn 10 l2.

(** The entries other than [x], in their order. *)
Definition others (x : str) (l : list str) : list str :=
  filter (fun y => negb (str_eqb y x)) l.

(** The list after the paths [ps] were added one after the other. *)
Definition add_all (recent_files : list str) (ps : list str) : list str :=
  fold_left _add_to_recent_files ps recent_files.

(** Every path once, at the place of its first occurrence. *)
Fixpoint dedup (l : list str) : list str :=
  match l with
  | [] => []
  | x :: r => x :: others x (dedup r)
  end.

(** The controller's font size and the sizes it has passed to
    [ui.set_font_size], oldest first. *)
Record fonts := mk_fonts {
  font_size : Z;
  set_font_size : list Z
}.

Definition _increase_font (f : fonts) : fonts :=
  let size := (font_size f + 1)%Z in
  mk_fonts size (set_font_size f ++ [size]).

Definition _decrease_font (f : fonts) : fonts :=
  if (font_size f >? 1)%Z then
    let size := (font_size f - 1)%Z in
    mk_fonts size (set_font_size f ++ [size])
  else f.

(** The two menu actions, and a run of them. *)
Inductive font_action := Increase_Font | Decrease_Font.

Definition font_step (f : fonts) (a : font_action) : fonts :=
  match a with
  | Increase_Font => _increase_font f
  | Decrease_Font => _decrease_font f
  end.

End Controller.

(** ** ScriptRunner *)

Module Runner.

Import Py Qt.

(** What [run_script] does to the outside: the signals it emits and the
    process it starts, in order. *)
Inductive effect :=
| output_signal (s : str)
| error_signal (s : str)
| process_start (program : str) (arguments : list str).

(** [sep.join(l)] *)
Fixpoint join (sep : str) (l : list str) : str :=
  match l with
  | [] => []
  | [x] => x
  | x :: r => x ++ sep ++ join sep r
  end.

Section World.

(** [QFileInfo(path).exists()] and [sys.executable]. *)
Variable file_exists : str -> bool.
Variable sys_executable : str.

(** No statement of [run_script] raises; it returns [None] on both
    paths, so its result is the list of its effects. *)
Definition run_script (file_path : str) (args : option (list str))
           (debugger : bool) : list effect :=
  if negb (file_exists file_path) then
    [error_signal (lit "Error: File not found at '" ++ file_path ++ lit "'")]
  else
    let command := [sys_executable] in
    let command := if debugger then command ++ [lit "-m"; lit "pdb"] else command in
    let command := command ++ [file_path] in
    let command :=
      match args with
      | Some (a :: r) => command ++ (a :: r)
      | _ => command
      end in
    [output_signal ([LF] ++ lit "[Running script: " ++ join (lit " ") command
                    ++ lit "]" ++ [LF]);
     process_start (hd [] command) (tl command)].

End World.

(** The controller connects [output_signal] and [error_signal] to the
    console's [appendPlainText]. *)
Definition deliver (c : Console.t) (e : effect) : Console.t :=
  match e with
  | output_signal s => Console.appendPlainText c s
  | error_signal s => Console.appendPlainText c s
  | process_start _ _ => c
  end.

(** What [_run_with_debugger] does to the console, for a saved file: the
    console is made editable and cleared, gets the debugger's prompt, and
    then receives what [run_script] emits. *)
Definition _run_with_debugger (file_exists : str -> bool)
           (sys_executable : str) (c : Console.t) (file_path : str)
  : Console.t :=
  let c := Console.setReadOnly c false in
  let c := Console.clear c in
  let c := Console.setPrompt c (lit "(pdb) ") in
  fold_left deliver
            (run_script file_exists sys_executable file_path None true) c.

Definition is_start (e : effect) : bool :=
  match e with
  | process_start _ _ => true
  | _ => false
  end.

End Runner.

(** ** Replace All *)

Module FindReplace.

Import Py.

Section Regex.

(** [re.sub(r'\b' + re.escape(find_text) + r'\b', replace_text, content,
    flags=re.IGNORECASE)], with [None] when it raises. *)
Variable re_sub_whole_word : str -> str -> str -> option str.

(** What the "replace_all" branch of [_handle_find_replace] computes from
    [editor.toPlainText()] and hands to [editor.setPlainText]; the handler
    has returned before when [find_text] is empty.  [None]: the regular
    expression call raised. *)
Definition replace_all_content (case_sensitive whole_word : bool)
           (find_text replace_text content : str) : option str :=
  if negb case_sensitive then
    if whole_word then re_sub_whole_word find_text replace_text content
    else Some (replace content find_text replace_text)
  else Some (replace content find_text replace_text).

End Regex.

End FindReplace.

(** ** The status bar and the title of the current tab *)

Module StatusBar.

Import Py Qt.

(** What [_update_status_bar] reads of the current editor. *)
Record editor := mk_editor {
  file_path : option str;          (* None, or the path *)
  isModified : bool;               (* document().isModified() *)
  toPlainText : str;
  cursor : nat                     (* textCursor().position() *)
}.

(** [textCursor().blockNumber()] and [columnNumber()]. *)
Definition blockNumber (e : editor) : nat :=
  length (filter is_LF (firstn (cursor e) (toPlainText e))).

Definition columnNumber (e : editor) : nat :=
  cursor e - block_start (toPlainText e) (cursor e).

(** What it writes: the message of the status bar, its two labels, and
    the text of the current tab. *)
Record bar := mk_bar {
  statusBar : str;
  status_cursor_label : str;
  status_filetype_label : str;
  tabText : str
}.

Section Files.

(** [QFileInfo(path).suffix()] *)
Variable suffix : str -> str.

Definition _update_status_bar (current : option editor) (b : bar) : bar :=
  match current with
  | None => mk_bar (lit "No file open") [] [] (tabText b)
  | Some e =>
      let line := blockNumber e + 1 in
      let col := columnNumber e + 1 in
      let cursor_label :=
        lit "Ln " ++ str_of_nat line ++ lit ", Col " ++ str_of_nat col in
      let path :=
        match file_path e with
        | Some (ch :: r) => Some (ch :: r)
        | _ => None
        end in
      let filetype_label :=
        match path with
        | Some p =>
            let file_extension := lower (suffix p) in
            if str_eqb file_extension (lit "py") then lit "Python"
            else lit "." ++ file_extension
        | None => lit "Plain Text"
        end in
      let current_title := tabText b in
      let status_message :=
        if isModified e then lit "Unsaved changes" else lit "Ready" in
      let title :=
        if isModified e then
          if negb (endswith current_title (lit "*"))
          then current_title ++ lit "*" else current_title
        else
          if endswith current_title (lit "*")
          then removesuffix current_title (lit "*") else current_title in
      let message :=
        match path with
        | Some p => p ++ lit " - " ++ status_message
        | None => lit "New file - " ++ status_message
        end in
      mk_bar message cursor_label filetype_label title
  end.

End Files.

End StatusBar.

(** ** SettingsManager *)

Module Settings.

Import Py.

(** A value of the store, by the type it has when read back: [QSettings]
    hands a stored integer, boolean or string back as such (a Python
    [str] for a string), and a [QByteArray] only for a stored byte
    array. *)
Inductive qvariant :=
| QInt (z : Z)
| QBool (b : bool)
| QString (s : str)
| QByteArray (b : str).

(** [QSettings]: keys to values. *)
Definition store := str -> option qvariant.

Definition setValue (s : store) (key : str) (v : qvariant) : store :=
  fun k => if str_eqb k key then Some v else s k.

Definition value (s : store) (key : str) (default : qvariant) : qvariant :=
  match s key with
  | Some v => v
  | None => default
  end.

Section Json.

(** The Python values that [json.dumps] takes and [json.loads] gives, the
    empty list among them; [json.loads] is [None] for a JSONDecodeError,
    [bytes.decode] for a UnicodeDecodeError. *)
Variable json : Type.
Variable empty_list : json.
Variable json_dumps : json -> str.
Variable json_loads : str -> option json.
Variable decode : str -> option str.

(** [sync()] writes the store out and leaves its content as it is. *)
Definition save_settings (s : store) (font_size : Z) (recent_files : json)
           (dark_mode : bool) (tabs : json) : store :=
  let s := setValue s (lit "font_size") (QInt font_size) in
  let s := setValue s (lit "recent_files") (QString (json_dumps recent_files)) in
  let s := setValue s (lit "dark_mode") (QBool dark_mode) in
  setValue s (lit "tabs") (QString (json_dumps tabs)).

(** [None]: the UnicodeDecodeError, which the method does not catch. *)
Definition _load_json_list (s : store) (key : str) : option json :=
  match value s key (QByteArray (lit "[]")) with
  | QByteArray data =>
      match decode data with
      | Some text =>
          match json_loads text with
          | Some v => Some v
          | None => Some empty_list
          end
      | None => None
      end
  | _ => Some empty_list
  end.

End Json.

End Settings.

Import Py Qt Console.

(** * Properties *)

(** ** Trimming *)

Section Trimming.

Lemma lstrip_length (s : str) : length (lstrip s) <= length s.
Proof.
  induction s as [|c r IH]; simpl; [lia|].
  destruct (isspace c); simpl; lia.
Qed.

Lemma lstrip_idem (s : str) : lstrip (lstrip s) = lstrip s.
Proof.
  induction s as [|c r IH]; simpl; [reflexivity|].
  destruct (isspace c) eqn:E; [exact IH|].
  simpl. now rewrite E.
Qed.

Lemma lstrip_blank (s : str) : lstrip s = [] <-> forallb isspace s = true.
Proof.
  induction s as [|c r IH]; simpl; [tauto|].
  destruct (isspace c); simpl; [exact IH|].
  split; discriminate.
Qed.

Lemma lstrip_app (a b : str) :
  lstrip (a ++ b) = if forallb isspace a then lstrip b else lstrip a ++ b.
Proof.
  induction a as [|c r IH]; simpl; [reflexivity|].
  destruct (isspace c); simpl; [exact IH|reflexivity].
Qed.

Lemma lstrip_head (c : ascii) (r : str) :
  isspace c = false -> lstrip (c :: r) = c :: r.
Proof. intros E. simpl. now rewrite E. Qed.

Lemma forallb_rev {A} (f : A -> bool) (l : list A) :
  forallb f (rev l) = forallb f l.
Proof.
  induction l as [|x r IH]; simpl; [reflexivity|].
  rewrite forallb_app, IH. simpl. rewrite andb_true_r. apply andb_comm.
Qed.

Lemma rstrip_length (s : str) : length (rstrip s) <= length s.
Proof.
  unfold rstrip. rewrite length_rev.
  pose proof (lstrip_length (rev s)) as H. now rewrite length_rev in H.
Qed.

Lemma rstrip_idem (s : str) : rstrip (rstrip s) = rstrip s.
Proof. unfold rstrip. now rewrite rev_involutive, lstrip_idem. Qed.

Lemma rstrip_blank (s : str) : rstrip s = [] <-> forallb isspace s = true.
Proof.
  unfold rstrip. rewrite <- (forallb_rev isspace s), <- lstrip_blank.
  split; intros H.
  - apply (f_equal (@rev ascii)) in H. now rewrite rev_involutive in H.
  - now rewrite H.
Qed.

Lemma rstrip_app (a b : str) :
  rstrip (a ++ b) = if forallb isspace b then rstrip a else a ++ rstrip b.
Proof.
  unfold rstrip. rewrite rev_app_distr, lstrip_app, forallb_rev.
  destruct (forallb isspace b); [reflexivity|].
  now rewrite rev_app_distr, rev_involutive.
Qed.

Lemma rstrip_head (c : ascii) (r : str) :
  isspace c = false -> rstrip (c :: r) = c :: rstrip r.
Proof.
  intros E. change (c :: r) with ([c] ++ r). rewrite rstrip_app.
  destruct (forallb isspace r) eqn:B.
  - apply rstrip_blank in B. rewrite B.
    unfold rstrip. simpl. now rewrite E.
  - reflexivity.
Qed.

(** Trimming on the right keeps a string that is trimmed on the left so. *)
Lemma lstrip_rstrip_fix (s : str) :
  lstrip s = s -> lstrip (rstrip s) = rstrip s.
Proof.
  destruct s as [|c r]; [reflexivity|].
  simpl. destruct (isspace c) eqn:E.
  - intros H. pose proof (lstrip_length r) as L. rewrite H in L. simpl in L. lia.
  - intros _. rewrite (rstrip_head _ _ E). now apply lstrip_head.
Qed.

Lemma strip_idem (s : str) : strip (strip s) = strip s.
Proof.
  unfold strip.
  rewrite (lstrip_rstrip_fix (lstrip s) (lstrip_idem s)).
  apply rstrip_idem.
Qed.

Lemma lstrip_rstrip_comm (s : str) : lstrip (rstrip s) = rstrip (lstrip s).
Proof.
  induction s as [|c r IH]; [reflexivity|].
  destruct (isspace c) eqn:E.
  - change (c :: r) with ([c] ++ r) at 1. rewrite rstrip_app.
    simpl lstrip at 2. rewrite E.
    destruct (forallb isspace r) eqn:B.
    + unfold rstrip at 1. simpl. rewrite E. simpl.
      symmetry. apply rstrip_blank.
      apply lstrip_blank in B. now rewrite B.
    + simpl. rewrite E. exact IH.
  - rewrite (lstrip_head _ _ E), (rstrip_head _ _ E). now apply lstrip_head.
Qed.

Lemma strip_rstrip (s : str) : strip (rstrip s) = strip s.
Proof.
  unfold strip. now rewrite lstrip_rstrip_comm, rstrip_idem.
Qed.

Lemma strip_blank (s : str) : strip s = [] <-> forallb isspace s = true.
Proof.
  unfold strip. rewrite <- lstrip_rstrip_comm, lstrip_blank.
  split; intros H.
  - apply rstrip_blank. apply lstrip_blank in H.
    rewrite <- rstrip_idem. apply rstrip_blank. now apply lstrip_blank.
  - apply rstrip_blank in H. now rewrite H.
Qed.

(** The command read off a line that is the prompt followed by the
    input, for a prompt that does not begin with white space. *)
Lemma strip_after_prompt (pr input : str) :
  prompt_ok pr = true ->
  strip (slice_from (length pr) (strip (pr ++ input))) = strip input.
Proof.
  intros P. unfold slice_from.
  destruct pr as [|c r].
  - simpl. apply strip_idem.
  - simpl in P. apply negb_true_iff in P.
    unfold strip at 2. rewrite <- app_comm_cons, (lstrip_head _ _ P).
    rewrite app_comm_cons, rstrip_app.
    destruct (forallb isspace input) eqn:B.
    + rewrite skipn_all2 by apply rstrip_length.
      symmetry. now apply strip_blank.
    + rewrite skipn_app, skipn_all, Nat.sub_diag. simpl.
      apply strip_rstrip.
Qed.

Lemma lstrip_fix_head (s : str) :
  s <> [] -> lstrip s = s -> exists c r, s = c :: r /\ isspace c = false.
Proof.
  destruct s as [|c r]; [congruence|]. intros _ H. exists c, r.
  split; [reflexivity|]. simpl in H. destruct (isspace c); [|reflexivity].
  pose proof (lstrip_length r) as L. rewrite H in L. simpl in L. lia.
Qed.

(** A non-empty string that is its own trimmed form begins and ends with
    a character that is not white space. *)
Lemma entry_ok_ends (h : str) :
  entry_ok h ->
  (exists c r, h = c :: r /\ isspace c = false) /\
  (exists r c, h = r ++ [c] /\ isspace c = false).
Proof.
  intros [N S]. split.
  - apply lstrip_fix_head; [exact N|].
    rewrite <- S. unfold strip. apply lstrip_rstrip_fix, lstrip_idem.
  - assert (R : rstrip h = h)
      by (rewrite <- S; unfold strip; apply rstrip_idem).
    unfold rstrip in R.
    assert (R' : lstrip (rev h) = rev h)
      by (rewrite <- R at 2; now rewrite rev_involutive).
    destruct (lstrip_fix_head (rev h)) as (c & r & E & I); [|exact R'|].
    + intros Z. apply (f_equal (@rev ascii)) in Z.
      rewrite rev_involutive in Z. now apply N.
    + exists (rev r), c. split; [|exact I].
      rewrite <- (rev_involutive h), E. reflexivity.
Qed.

End Trimming.

(** ** Lines of the document *)

Section Lines.

Lemma no_break_app (a b : str) :
  no_break (a ++ b) = no_break a && no_break b.
Proof. apply forallb_app. Qed.

Lemma no_break_rev (s : str) : no_break (rev s) = no_break s.
Proof. apply forallb_rev. Qed.

Lemma no_break_firstn (n : nat) (s : str) :
  no_break s = true -> no_break (firstn n s) = true.
Proof.
  intros H. rewrite <- (firstn_skipn n s), no_break_app in H.
  now apply andb_true_iff in H.
Qed.

Lemma no_break_no_CR (s : str) : no_break s = true -> no_CR s = true.
Proof.
  unfold no_break, no_CR. rewrite !forallb_forall. intros H ch I.
  specialize (H ch I). rewrite negb_orb in H. now apply andb_true_iff in H.
Qed.

Lemma plain_id (s : str) : no_CR s = true -> plain s = s.
Proof.
  induction s as [|c r IH]; [reflexivity|].
  simpl. intros H. apply andb_true_iff in H. destruct H as [C R].
  apply negb_true_iff in C. rewrite C. now rewrite IH.
Qed.

Lemma upto_LF_app (s r : str) :
  no_break s = true -> upto_LF (s ++ r) = s ++ upto_LF r.
Proof.
  induction s as [|c t IH]; [reflexivity|].
  simpl. intros H. apply andb_true_iff in H. destruct H as [C R].
  rewrite negb_orb in C. apply andb_true_iff in C. destruct C as [C _].
  apply negb_true_iff in C. rewrite C. now rewrite IH.
Qed.

Lemma upto_LF_ends (sb : str) : ends_line sb = true -> upto_LF (rev sb) = [].
Proof.
  unfold ends_line. destruct (rev sb) as [|c r]; [reflexivity|].
  simpl. now intros ->.
Qed.

(** On the last line [ln] of [sb ++ ln], StartOfLine leads to the end of
    [sb] and EndOfLine to the end of the text. *)
Lemma block_start_last (sb ln : str) (p : nat) :
  ends_line sb = true -> no_break ln = true ->
  length sb <= p <= length sb + length ln ->
  block_start (sb ++ ln) p = length sb.
Proof.
  intros E B P. unfold block_start.
  rewrite firstn_app, (firstn_all2 sb) by lia.
  rewrite rev_app_distr, upto_LF_app
    by (rewrite no_break_rev; now apply no_break_firstn).
  rewrite (upto_LF_ends _ E), app_nil_r, length_rev, length_firstn. lia.
Qed.

Lemma block_end_last (sb ln : str) :
  no_break ln = true ->
  block_end (sb ++ ln) (length sb) = length sb + length ln.
Proof.
  intros B. unfold block_end.
  rewrite skipn_app, skipn_all, Nat.sub_diag. simpl.
  rewrite <- (app_nil_r ln) at 1. rewrite (upto_LF_app _ _ B). simpl.
  now rewrite app_nil_r.
Qed.

Lemma sub_last (sb ln : str) :
  sub (sb ++ ln) (length sb) (length sb + length ln) = ln.
Proof.
  unfold sub. rewrite skipn_app, skipn_all, Nat.sub_diag. simpl.
  apply firstn_all2. lia.
Qed.

End Lines.

(** ** The console: what each handler leaves alone and what it sets *)

Section Handlers.

Lemma str_eqb_eq (a b : str) : str_eqb a b = true <-> a = b.
Proof.
  unfold str_eqb. destruct (list_eq_dec ascii_dec a b); split; congruence.
Qed.

Lemma truthy_nonempty (s : str) : truthy s = true <-> s <> [].
Proof. destruct s; simpl; split; congruence. Qed.

Lemma restrict_cursor_fields (c : t) :
  let r := restrict_cursor c in
  text r = text c /\ prompt r = prompt c /\ read_only r = read_only c /\
  current_line_start_pos r = current_line_start_pos c /\
  history r = history c /\ history_index r = history_index c /\
  emitted r = emitted c.
Proof.
  unfold restrict_cursor. destruct (position c <? current_line_start_pos c);
    simpl; repeat split.
Qed.

Lemma restrict_cursor_end (c : t) :
  position c < current_line_start_pos c ->
  restrict_cursor c = set_cursor c (length (text c)).
Proof.
  intros H. unfold restrict_cursor, characterCount.
  apply Nat.ltb_lt in H. rewrite H. f_equal. lia.
Qed.

Lemma restrict_cursor_keep (c : t) :
  current_line_start_pos c <= position c -> restrict_cursor c = c.
Proof.
  intros H. unfold restrict_cursor.
  apply Nat.ltb_ge in H. now rewrite H.
Qed.



(** Enter, after the guard: every field of the result. *)
Lemma command_entry_result (c : t) :
  let cmd := command_of c in
  let c' := _handle_command_entry c in
  history_index c' = (-1)%Z /\
  emitted c' = emitted c ++ [cmd] /\
  prompt c' = prompt c /\
  read_only c' = read_only c /\
  history c' =
    (if truthy cmd then
       match history c with
       | [] => [cmd]
       | h0 :: _ => if str_eqb h0 cmd then history c else cmd :: history c
       end
     else history c) /\
  text c' = text c ++ [LF] ++ plain (prompt c) /\
  position c' = length (text c') /\
  anchor c' = length (text c') /\
  current_line_start_pos c' = length (text c) + 1 + length (prompt c).
Proof.
  intros cmd c'. subst c'. unfold _handle_command_entry. fold cmd.
  destruct c as [tx a p ro pr ls h i em]. simpl in cmd |- *.
  assert (F : firstn (length tx) tx = tx) by apply firstn_all.
  assert (S : skipn (length tx) tx = []) by apply skipn_all.
  destruct (truthy cmd); [destruct h as [|h0 h']; [|destruct (str_eqb h0 cmd)]|];
    cbn -[plain firstn skipn];
    rewrite ?F, ?S; cbn -[plain firstn skipn]; rewrite ?app_nil_r;
    repeat rewrite firstn_all; repeat rewrite skipn_all;
    rewrite ?app_nil_r, <- ?app_assoc; repeat split;
    rewrite ?length_app; simpl; lia.
Qed.

Lemma getitem_nth {A} (l : list A) (i : Z) (d : A) :
  (0 <= i < Z.of_nat (length l))%Z ->
  getitem l i = Some (nth (Z.to_nat i) l d).
Proof.
  intros H. unfold getitem.
  replace ((0 <=? i)%Z && (i <? Z.of_nat (length l))%Z) with true
    by (symmetry; apply andb_true_iff; split; [apply Z.leb_le|apply Z.ltb_lt]; lia).
  apply nth_error_nth'. lia.
Qed.

(** Up and Down, after the guard: the index moves by one and stays in
    range, the entry it names is found, and nothing but the document and
    the index changes. *)
Lemma history_navigation_index (c : t) (k : Key) :
  index_ok c -> k = Key_Up \/ k = Key_Down ->
  exists c', _handle_history_navigation c k = Some c' /\
    history c' = history c /\ prompt c' = prompt c /\
    read_only c' = read_only c /\ emitted c' = emitted c /\
    current_line_start_pos c' = current_line_start_pos c /\
    history_index c' =
      match k with
      | Key_Up => Z.min (history_index c + 1) (Z.of_nat (length (history c)) - 1)
      | _ => Z.max (history_index c - 1) (-1)
      end.
Proof.
  intros I K. unfold _handle_history_navigation.
  destruct c as [tx a p ro pr ls h i em]. unfold index_ok in I. simpl in I |- *.
  destruct h as [|h0 h'].
  - simpl in I. assert (i = (-1)%Z) by lia. subst i.
    eexists; split; [reflexivity|]. simpl. destruct K; subst k; repeat split.
  - set (n := Z.of_nat (length (h0 :: h'))) in *.
    set (i' := match k with
               | Key_Up => if (i <? n - 1)%Z then (i + 1)%Z else i
               | Key_Down => if (i >? 0)%Z then (i - 1)%Z else (-1)%Z
               | _ => i
               end).
    assert (E : i' = match k with
                     | Key_Up => Z.min (i + 1) (n - 1)
                     | _ => Z.max (i - 1) (-1)
                     end /\ (-1 <= i' < n)%Z).
    { subst i'. destruct K; subst k.
      - destruct (Z.ltb_spec i (n - 1)); lia.
      - rewrite Z.gtb_ltb. destruct (Z.ltb_spec 0 i); lia. }
    destruct E as [E R].
    destruct (Z.eqb_spec i' (-1)) as [M|M].
    + eexists; split; [reflexivity|]. simpl. repeat split. exact E.
    + cbn [history insert_at remove_range with_history_index with_doc].
      rewrite (getitem_nth (h0 :: h') i' []) by (fold n; lia).
      eexists; split; [reflexivity|]. simpl. repeat split. exact E.
Qed.

(** Whenever Up or Down returns, the history is the one before. *)
Lemma history_navigation_history (c c' : t) (k : Key) :
  _handle_history_navigation c k = Some c' -> history c' = history c.
Proof.
  unfold _handle_history_navigation.
  destruct c as [tx a p ro pr ls h i em]. simpl.
  destruct h as [|h0 h']; [now intros [= <-]|].
  match goal with |- context [Z.eqb ?x (-1)] => destruct (Z.eqb x (-1)) end.
  - now intros [= <-].
  - match goal with |- context [getitem ?l ?x] => destruct (getitem l x) end;
      [now intros [= <-]|discriminate].
Qed.

(** The default handling of a key touches the document only. *)
Lemma default_key_fields (c : t) (k : Key) :
  let c' := QPlainTextEdit_keyPressEvent c k in
  history c' = history c /\ history_index c' = history_index c /\
  prompt c' = prompt c /\ read_only c' = read_only c /\
  emitted c' = emitted c /\
  current_line_start_pos c' = current_line_start_pos c.
Proof.
  unfold QPlainTextEdit_keyPressEvent.
  destruct (read_only c) eqn:RO; [simpl; now repeat split|].
  destruct k; simpl;
    repeat match goal with
           | |- context [if ?b then _ else _] => destruct b
           end; simpl; now repeat split.
Qed.

(** A key event leaves the history as it is or puts one command in
    front, and that command is trimmed and not empty. *)
Lemma keyPressEvent_history (c c' : t) (k : Key) :
  keyPressEvent c k = Some c' ->
  history c' = history c \/
  exists cmd, cmd <> [] /\ strip cmd = cmd /\ history c' = cmd :: history c.
Proof.
  pose proof (restrict_cursor_fields c) as (_ & _ & _ & _ & H & _).
  assert (Ent : _handle_command_entry (restrict_cursor c) = c' ->
                history c' = history c \/
                exists cmd, cmd <> [] /\ strip cmd = cmd /\
                            history c' = cmd :: history c).
  { intros <-.
    destruct (command_entry_result (restrict_cursor c)) as (_ & _ & _ & _ & R & _).
    rewrite R, H. clear R.
    set (cmd := command_of (restrict_cursor c)).
    assert (S : strip cmd = cmd) by apply strip_idem.
    destruct (truthy cmd) eqn:T; [|now left].
    apply truthy_nonempty in T.
    destruct (history c) as [|h0 h']; [right; now exists cmd|].
    destruct (str_eqb h0 cmd); [now left|right; now exists cmd]. }
  unfold keyPressEvent.
  destruct k;
    try (intros [= E]; exact (Ent E));
    try (intros [= <-]; left;
         now rewrite (proj1 (default_key_fields (restrict_cursor c) _)));
    intros N; left; now rewrite (history_navigation_history _ _ _ N).
Qed.

(** With the index in range a key event returns, and the index is in
    range afterwards. *)
Lemma keyPressEvent_returns (c : t) (k : Key) :
  index_ok c -> exists c', keyPressEvent c k = Some c' /\ index_ok c'.
Proof.
  intros I.
  pose proof (restrict_cursor_fields c) as (_ & _ & _ & _ & H & X & _).
  assert (I1 : index_ok (restrict_cursor c))
    by (unfold index_ok in *; now rewrite H, X).
  assert (D : forall k', index_ok (QPlainTextEdit_keyPressEvent (restrict_cursor c) k')).
  { intros k'. destruct (default_key_fields (restrict_cursor c) k') as (A & B & _).
    unfold index_ok in *. now rewrite A, B. }
  assert (N : forall k', k' = Key_Up \/ k' = Key_Down ->
            exists c', _handle_history_navigation (restrict_cursor c) k' = Some c'
                       /\ index_ok c').
  { intros k' K.
    destruct (history_navigation_index _ k' I1 K) as (c' & E & Hh & _ & _ & _ & _ & Hi).
    exists c'. split; [exact E|]. unfold index_ok in *. rewrite Hh, Hi.
    destruct K; subst k'; lia. }
  assert (R : index_ok (_handle_command_entry (restrict_cursor c))).
  { destruct (command_entry_result (restrict_cursor c)) as (A & _).
    unfold index_ok. rewrite A. lia. }
  unfold keyPressEvent.
  destruct k; eauto.
Qed.

End Handlers.

(** ** The console at a prompt *)

Section AtPrompt.

Lemma after_remove_inside (s n p : nat) :
  s <= p <= s + n -> after_remove s n p = s.
Proof.
  intros H. unfold after_remove.
  destruct (Nat.ltb_spec p s); [lia|].
  destruct (Nat.ltb_spec p (s + n)); lia.
Qed.

Lemma after_insert_from (s n p : nat) :
  s <= p -> after_insert s n p = p + n.
Proof.
  intros H. unfold after_insert. destruct (Nat.ltb_spec p s); lia.
Qed.

(** Removing the last line through a cursor copy leaves every cursor on
    that line at its start. *)
Lemma remove_last_line (c : t) (sb ln : str) :
  text c = sb ++ ln ->
  length sb <= anchor c <= length (text c) ->
  length sb <= position c <= length (text c) ->
  remove_range c (length sb) (length sb + length ln)
  = with_doc c sb (length sb) (length sb).
Proof.
  intros T A P. unfold remove_range. rewrite T in *. rewrite length_app in *.
  rewrite firstn_app, firstn_all, Nat.sub_diag. simpl firstn.
  rewrite skipn_all2 by (rewrite length_app; lia).
  rewrite !after_remove_inside by lia. now rewrite !app_nil_r.
Qed.

Lemma insert_at_end (c : t) (x : str) :
  anchor c = length (text c) -> position c = length (text c) ->
  insert_at c (length (text c)) x
  = with_doc c (text c ++ plain x)
             (length (text c) + length (plain x))
             (length (text c) + length (plain x)).
Proof.
  intros A P. unfold insert_at.
  rewrite firstn_all, skipn_all, app_nil_r, A, P.
  now rewrite after_insert_from by lia.
Qed.

Lemma insertPlainText_end (c : t) (x : str) :
  anchor c = length (text c) -> position c = length (text c) ->
  insertPlainText c x
  = with_doc c (text c ++ plain x)
             (length (text c) + length (plain x))
             (length (text c) + length (plain x)).
Proof.
  intros A P. unfold insertPlainText.
  rewrite A, P, Nat.min_id, Nat.max_id.
  now rewrite firstn_all, skipn_all, app_nil_r.
Qed.

Lemma at_prompt_guard (c : t) (sb input : str) :
  at_prompt c sb input ->
  at_prompt (restrict_cursor c) sb input /\
  length sb <= position (restrict_cursor c).
Proof.
  intros (T & L & B & E & A & P).
  unfold restrict_cursor, characterCount.
  destruct (Nat.ltb_spec (position c) (current_line_start_pos c)) as [H|H].
  - unfold at_prompt. simpl. rewrite T, !length_app.
    replace (length sb + (length (prompt c) + length input) + 1 - 1)
      with (length sb + (length (prompt c) + length input)) by lia.
    repeat split; try assumption; lia.
  - split; [repeat split; try assumption; lia|lia].
Qed.

Lemma current_line_at_prompt (c : t) (sb input : str) :
  at_prompt c sb input -> current_line c = input.
Proof.
  intros (T & L & _). unfold current_line. rewrite T, L, app_assoc.
  rewrite skipn_app, length_app, Nat.sub_diag, skipn_all2
    by (rewrite length_app; lia).
  reflexivity.
Qed.

(** At a prompt, the command that Enter reads is the trimmed input. *)
Lemma command_of_at_prompt (c : t) (sb input : str) :
  at_prompt c sb input -> length sb <= position c ->
  prompt_ok (prompt c) = true ->
  command_of c = strip input.
Proof.
  intros (T & L & B & E & A & P) Q K. unfold command_of.
  rewrite T in *. rewrite !length_app in P.
  rewrite (block_start_last sb (prompt c ++ input) (position c) E B)
    by (rewrite length_app; lia).
  rewrite (block_end_last sb _ B), sub_last.
  now apply strip_after_prompt.
Qed.

Lemma history_entry_plain (h : list str) (i : nat) :
  forallb no_break h = true -> no_break (nth i h []) = true.
Proof.
  intros H. destruct (Nat.ltb_spec i (length h)) as [L|L].
  - rewrite forallb_forall in H. apply H. now apply nth_In.
  - now rewrite nth_overflow.
Qed.

(** Up and Down at a prompt: the line is rewritten as the prompt followed
    by the recalled entry, and the cursor ends behind it. *)
Lemma history_navigation_at_prompt (c : t) (k : Key) (sb input : str) :
  at_prompt c sb input -> length sb <= position c ->
  history c <> [] -> index_ok c -> forallb no_break (history c) = true ->
  k = Key_Up \/ k = Key_Down ->
  exists c', _handle_history_navigation c k = Some c' /\
    at_prompt c' sb (recalled c') /\
    position c' = length (text c') /\ anchor c' = length (text c').
Proof.
  intros (T & L & B & E & A & P) Q N I Hp K.
  destruct (history_navigation_index c k I K) as (c' & R & Hh & Hpr & _ & _ & Hl & Hi).
  exists c'. split; [exact R|].
  assert (Ri : (-1 <= history_index c' < Z.of_nat (length (history c)))%Z).
  { rewrite Hi. unfold index_ok in I.
    assert (0 < length (history c)) by (destruct (history c); simpl; [congruence|lia]).
    destruct K; subst k; lia. }
  revert R. unfold _handle_history_navigation.
  destruct (history c) as [|h0 h'] eqn:Eh; [congruence|]. rewrite <- Eh in *.
  match goal with |- context [Z.eqb ?x (-1)] => set (i' := x) end.
  set (c1 := with_history_index c i').
  assert (T1 : text c1 = sb ++ (prompt c ++ input)) by exact T.
  assert (Bp : no_break (prompt c) = true /\ no_break input = true)
    by (rewrite no_break_app in B; now apply andb_true_iff in B).
  rewrite T1, (block_start_last sb _ (position c1) E B)
    by (simpl; rewrite T, !length_app in P; rewrite length_app; lia).
  rewrite (block_end_last sb _ B).
  rewrite (remove_last_line c1 sb (prompt c ++ input) T1)
    by (simpl; lia).
  set (c2 := with_doc c1 sb (length sb) (length sb)).
  change (length sb) with (length (text c2)).
  rewrite (insert_at_end c2 (prompt c2)) by reflexivity.
  change (prompt c2) with (prompt c). change (text c2) with sb.
  rewrite (plain_id (prompt c)) by (now apply no_break_no_CR).
  set (c3 := with_doc c2 _ _ _).
  destruct (Z.eqb_spec i' (-1)) as [M|M].
  - intros [= <-]. subst c3 c2 c1. unfold at_prompt, recalled. simpl.
    rewrite M. simpl. rewrite ?app_nil_r, ?length_app.
    repeat split; try assumption; try lia. tauto.
  - assert (Ei : history_index c' = i' -> (0 <= i' < Z.of_nat (length (history c)))%Z)
      by lia.
    change (history c3) with (history c).
    destruct (getitem (history c) i') as [h|] eqn:G; [|discriminate].
    intros [= <-].
    rewrite insertPlainText_end by (simpl; now rewrite length_app).
    specialize (Ei eq_refl).
    pose proof (getitem_nth (history c) i' [] Ei) as G'.
    assert (Eq : h = nth (Z.to_nat i') (history c) []) by congruence.
    clear G G'. subst h.
    assert (Bh : no_break (nth (Z.to_nat i') (history c) []) = true)
      by (now apply history_entry_plain).
    rewrite (plain_id _ (no_break_no_CR _ Bh)).
    subst c3 c2 c1. unfold at_prompt, recalled. simpl.
    destruct (Z.eqb_spec i' (-1)); [lia|].
    rewrite !length_app, <- app_assoc, no_break_app.
    destruct Bp as [-> _]. rewrite Bh.
    repeat split; try assumption; lia.
Qed.

(** Enter at a prompt: the line joins the scrollback and a fresh prompt
    with an empty input follows. *)
Lemma command_entry_at_prompt (c : t) (sb input : str) :
  at_prompt c sb input ->
  at_prompt (_handle_command_entry c) (sb ++ prompt c ++ input ++ [LF]) [].
Proof.
  intros (T & L & B & E & A & P).
  destruct (command_entry_result c) as (_ & _ & Hp & _ & _ & Ht & Hq & Ha & Hl).
  assert (Bp : no_break (prompt c) = true)
    by (rewrite no_break_app in B; now apply andb_true_iff in B).
  rewrite (plain_id _ (no_break_no_CR _ Bp)) in Ht.
  unfold at_prompt. rewrite Hp, Hq, Ha, Hl, Ht, T, app_nil_r.
  rewrite no_break_app in B. rewrite !length_app. simpl.
  repeat split; try lia.
  - now rewrite <- !app_assoc.
  - now rewrite Bp.
  - unfold ends_line. rewrite !app_assoc, rev_unit. reflexivity.
Qed.

Lemma setPrompt_result (c : t) (p : str) :
  let c' := setPrompt c p in
  text c' = text c ++ plain p /\ prompt c' = p /\
  current_line_start_pos c' = position c + length p /\
  position c' = length (text c') /\ anchor c' = length (text c') /\
  history c' = history c /\ history_index c' = history_index c /\
  read_only c' = read_only c /\ emitted c' = emitted c.
Proof.
  destruct c as [tx a q ro pr ls h i em].
  unfold setPrompt, appendPlainText, insert_at, set_cursor. simpl.
  rewrite firstn_all, skipn_all, app_nil_r. now repeat split.
Qed.

(** [setPrompt] behind a finished line, with the cursor at the end,
    leaves the console at a prompt with an empty input. *)
Lemma setPrompt_at_prompt (c : t) (p : str) :
  position c = length (text c) -> ends_line (text c) = true ->
  no_break p = true ->
  at_prompt (setPrompt c p) (text c) [].
Proof.
  intros P E B.
  destruct (setPrompt_result c p) as (Ht & Hp & Hl & Hq & Ha & _).
  rewrite (plain_id p (no_break_no_CR p B)) in Ht.
  unfold at_prompt. rewrite Hp, Hl, Hq, Ha, Ht, P, !app_nil_r, length_app.
  repeat split; try assumption; lia.
Qed.

Lemma restrict_cursor_at_end (c : t) :
  anchor c = length (text c) -> position c = length (text c) ->
  restrict_cursor c = c.
Proof.
  destruct c as [tx a q ro pr ls h i em]. simpl. intros -> ->.
  unfold restrict_cursor, characterCount, set_cursor, with_doc. simpl.
  destruct (length tx <? ls); [|reflexivity].
  now replace (length tx + 1 - 1) with (length tx) by lia.
Qed.

Lemma isPrint_plain (ch : ascii) :
  isPrint ch = true -> plain [ch] = [ch].
Proof.
  destruct ch as [[] [] [] [] [] [] [] []]; vm_compute; congruence.
Qed.

(** Typing printable characters at the end of an editable console
    appends them; nothing else changes. *)
Lemma type_at_end (s : str) (c : t) :
  read_only c = false -> forallb isPrint s = true ->
  anchor c = length (text c) -> position c = length (text c) ->
  keyPressEvents c (map Key_Char s)
  = Some (with_doc c (text c ++ s)
                   (length (text c ++ s)) (length (text c ++ s))).
Proof.
  revert c. induction s as [|ch r IH]; intros c RO Pr A P.
  - simpl. rewrite app_nil_r. destruct c; simpl in *. now subst.
  - simpl in Pr. apply andb_true_iff in Pr. destruct Pr as [Pc Pr].
    cbn [map keyPressEvents]. unfold keyPressEvent.
    rewrite (restrict_cursor_at_end c A P).
    unfold QPlainTextEdit_keyPressEvent, isAcceptableInput.
    rewrite RO, Pc, orb_true_r. cbv iota.
    rewrite (insertPlainText_end c [ch] A P), (isPrint_plain ch Pc).
    rewrite IH; try assumption; try reflexivity.
    + simpl. now rewrite <- !app_assoc.
    + simpl. rewrite length_app. simpl. reflexivity.
    + simpl. rewrite length_app. simpl. reflexivity.
Qed.

(** Up and Down as key events, from any state with the index in range. *)
Lemma keyPressEvent_navigation (c : t) (k : Key) :
  index_ok c -> k = Key_Up \/ k = Key_Down ->
  exists c', keyPressEvent c k = Some c' /\
    history c' = history c /\ prompt c' = prompt c /\
    read_only c' = read_only c /\ emitted c' = emitted c /\
    current_line_start_pos c' = current_line_start_pos c /\
    history_index c' =
      match k with
      | Key_Up => Z.min (history_index c + 1) (Z.of_nat (length (history c)) - 1)
      | _ => Z.max (history_index c - 1) (-1)
      end.
Proof.
  intros I K.
  pose proof (restrict_cursor_fields c) as (_ & Hp & Hr & Hl & Hh & Hi & He).
  assert (I1 : index_ok (restrict_cursor c))
    by (unfold index_ok in *; now rewrite Hh, Hi).
  destruct (history_navigation_index _ k I1 K) as (c' & E & R).
  exists c'. split.
  - unfold keyPressEvent. destruct K; subst k; exact E.
  - now rewrite <- Hp, <- Hr, <- Hl, <- He, <- Hh, <- Hi.
Qed.

(** Up and Down as key events at a prompt. *)
Lemma keyPressEvent_recall (c : t) (k : Key) (sb input : str) :
  history c <> [] -> index_ok c -> forallb no_break (history c) = true ->
  at_prompt c sb input -> k = Key_Up \/ k = Key_Down ->
  exists c', keyPressEvent c k = Some c' /\
    history c' = history c /\ prompt c' = prompt c /\
    history_index c' =
      match k with
      | Key_Up => Z.min (history_index c + 1) (Z.of_nat (length (history c)) - 1)
      | _ => Z.max (history_index c - 1) (-1)
      end /\
    index_ok c' /\
    at_prompt c' sb (recalled c') /\ current_line c' = recalled c'.
Proof.
  intros N I Hp Hat K.
  destruct (keyPressEvent_navigation c k I K) as (c' & E & Hh & Hpr & _ & _ & _ & Hi).
  exists c'. split; [exact E|]. split; [exact Hh|]. split; [exact Hpr|].
  split; [exact Hi|].
  assert (I' : index_ok c').
  { unfold index_ok in *. rewrite Hh, Hi.
    assert (0 < length (history c)) by (destruct (history c); simpl; [congruence|lia]).
    destruct K; subst k; lia. }
  split; [exact I'|].
  destruct (at_prompt_guard c sb input Hat) as (Hat' & Q).
  pose proof (restrict_cursor_fields c) as (_ & _ & _ & _ & Rh & Ri & _).
  destruct (history_navigation_at_prompt (restrict_cursor c) k sb input Hat' Q)
    as (c'' & E' & Hat'' & _); try assumption.
  - now rewrite Rh.
  - unfold index_ok in *. now rewrite Rh, Ri.
  - now rewrite Rh.
  - assert (c'' = c').
    { unfold keyPressEvent in E. destruct K; subst k; congruence. }
    subst c''. split; [exact Hat''|].
    now apply (current_line_at_prompt c' sb).
Qed.

Lemma firstn_prefix {A} (a b : list A) : firstn (length a) (a ++ b) = a.
Proof.
  rewrite firstn_app, firstn_all, Nat.sub_diag. simpl. apply app_nil_r.
Qed.

(** At a prompt, the keys that the console handles itself (Up, Down,
    Return, Enter), and every key in a read-only console, leave the text
    before [line_start] as it was. *)
Lemma scrollback_kept (c c' : t) (k : Key) (sb input : str) :
  at_prompt c sb input -> index_ok c ->
  forallb no_break (history c) = true ->
  read_only c = true \/ In k [Key_Up; Key_Down; Key_Return; Key_Enter] ->
  keyPressEvent c k = Some c' ->
  firstn (current_line_start_pos c) (text c')
  = firstn (current_line_start_pos c) (text c).
Proof.
  intros Hat I Hp D E.
  pose proof Hat as (T & L & B & _).
  pose proof (restrict_cursor_fields c) as (Rt & Rp & Rr & _).
  assert (Nav : forall k', k' = Key_Up \/ k' = Key_Down ->
                keyPressEvent c k' = Some c' ->
                firstn (current_line_start_pos c) (text c')
                = firstn (current_line_start_pos c) (text c)).
  { intros k' K E'. destruct (history c) as [|h0 h'] eqn:Eh.
    - unfold keyPressEvent in E'.
      assert (R : _handle_history_navigation (restrict_cursor c) k' = Some c')
        by (destruct K; subst k'; exact E').
      unfold _handle_history_navigation in R.
      pose proof (restrict_cursor_fields c) as (_ & _ & _ & _ & Rh & _).
      rewrite Rh, Eh in R. injection R as <-. now rewrite Rt.
    - assert (N : history c <> []) by (rewrite Eh; discriminate).
      rewrite <- Eh in Hp.
      destruct (keyPressEvent_recall c k' sb input N I Hp Hat K)
        as (c'' & E'' & _ & Hpr & _ & _ & (T' & _) & _).
      assert (c'' = c') by congruence. subst c''.
      rewrite T', Hpr, T, L, !app_assoc, <- length_app.
      now rewrite !firstn_prefix. }
  assert (Ent : _handle_command_entry (restrict_cursor c) = c' ->
                firstn (current_line_start_pos c) (text c')
                = firstn (current_line_start_pos c) (text c)).
  { intros <-.
    destruct (command_entry_result (restrict_cursor c))
      as (_ & _ & _ & _ & _ & Ht & _).
    rewrite Ht, Rt, firstn_app.
    replace (current_line_start_pos c - length (text c)) with 0
      by (rewrite T, L, !length_app; lia).
    simpl. now rewrite app_nil_r. }
  destruct D as [RO|K].
  - destruct k;
      try (apply (Nav _ (or_introl eq_refl) E));
      try (apply (Nav _ (or_intror eq_refl) E));
      try (apply Ent; unfold keyPressEvent in E; congruence);
      unfold keyPressEvent in E; injection E as <-;
      unfold QPlainTextEdit_keyPressEvent; rewrite Rr, RO; now rewrite Rt.
  - simpl in K. destruct K as [<-|[<-|[<-|[<-|[]]]]].
    + apply (Nav _ (or_introl eq_refl) E).
    + apply (Nav _ (or_intror eq_refl) E).
    + apply Ent. unfold keyPressEvent in E. congruence.
    + apply Ent. unfold keyPressEvent in E. congruence.
Qed.

(** In an editable console at a prompt, with the cursor at [line_start]
    and nothing selected, Backspace removes the last character of the
    prompt. *)
Lemma backspace_at_line_start (c : t) (sb input : str) :
  at_prompt c sb input -> read_only c = false -> prompt c <> [] ->
  anchor c = position c -> position c = current_line_start_pos c ->
  exists c', keyPressEvent c Key_Backspace = Some c' /\
    text c' = sb ++ removelast (prompt c) ++ input /\
    current_line_start_pos c' = current_line_start_pos c /\
    length (text c') < length (text c).
Proof.
  intros (T & L & _) RO N A P.
  assert (Lp : 0 < length (prompt c))
    by (destruct (prompt c); simpl; [congruence|lia]).
  unfold keyPressEvent. rewrite restrict_cursor_keep by lia.
  unfold QPlainTextEdit_keyPressEvent. rewrite RO, A, Nat.min_id, Nat.max_id.
  rewrite Nat.ltb_irrefl.
  replace (0 <? position c) with true by (symmetry; apply Nat.ltb_lt; lia).
  eexists. split; [reflexivity|]. simpl.
  rewrite P, L, T. split; [|split; [reflexivity|]].
  - rewrite app_assoc, <- length_app.
    set (l := sb ++ prompt c).
    assert (Nl : prompt c <> []) by exact N.
    rewrite skipn_app, skipn_all, Nat.sub_diag. simpl skipn.
    rewrite firstn_app.
    replace (length l - 1 - length l) with 0 by lia.
    replace (length l - 1) with (pred (length l)) by lia.
    rewrite <- removelast_firstn_len. subst l.
    rewrite (removelast_app sb Nl). simpl. now rewrite app_nil_r, <- app_assoc.
  - rewrite !length_app, length_firstn, length_skipn, !length_app. lia.
Qed.

End AtPrompt.

(** ** The recent-files list *)

Section RecentFiles.

Import Controller.

Lemma contains_In (x : str) (l : list str) : contains x l = true <-> In x l.
Proof.
  induction l as [|y r IH]; simpl; [split; [discriminate|tauto]|].
  rewrite orb_true_iff, str_eqb_eq, IH. tauto.
Qed.

Lemma remove_absent (x : str) (l : list str) : ~ In x l -> Py.remove x l = l.
Proof.
  induction l as [|y r IH]; simpl; [reflexivity|]. intros N.
  destruct (str_eqb y x) eqn:E.
  - apply str_eqb_eq in E. tauto.
  - rewrite IH; tauto.
Qed.

Lemma others_absent (x : str) (l : list str) : ~ In x l -> others x l = l.
Proof.
  induction l as [|y r IH]; simpl; [reflexivity|]. intros N.
  destruct (str_eqb y x) eqn:E; simpl.
  - apply str_eqb_eq in E. tauto.
  - rewrite IH; tauto.
Qed.

(** In a list without duplicates, dropping the first [x] drops every [x]. *)
Lemma remove_others (x : str) (l : list str) :
  NoDup l -> Py.remove x l = others x l.
Proof.
  induction 1 as [|y r N D IH]; simpl; [reflexivity|].
  destruct (str_eqb y x) eqn:E; simpl.
  - apply str_eqb_eq in E. subst y. symmetry. now apply others_absent.
  - now rewrite IH.
Qed.

Lemma others_not_In (x : str) (l : list str) : ~ In x (others x l).
Proof.
  unfold others. rewrite filter_In. intros [_ H].
  apply negb_true_iff in H.
  now rewrite (proj2 (str_eqb_eq x x) eq_refl) in H.
Qed.

Lemma NoDup_firstn {A} (n : nat) (l : list A) : NoDup l -> NoDup (firstn n l).
Proof.
  intros H. rewrite <- (firstn_skipn n l) in H.
  now apply NoDup_app_remove_r in H.
Qed.

Lemma add_to_recent_files_eq (l : list str) (x : str) :
  _add_to_recent_files l x = x :: firstn 9 (Py.remove x l).
Proof.
  unfold _add_to_recent_files.
  destruct (contains x l) eqn:C; [reflexivity|].
  rewrite remove_absent; [reflexivity|].
  intros I. apply contains_In in I. congruence.
Qed.

End RecentFiles.

(** ** The claims *)

Section Claims.

(** C7.  When a key event arrives with the cursor strictly before
    [line_start], the guard puts the cursor (anchor and position) at the
    end of the buffer and changes nothing else, and the key is then
    handled in that state, whichever key it is. *)
Theorem C7_cursor_forced_to_end (c : t) (k : Key) :
  position c < current_line_start_pos c ->
  let c1 := restrict_cursor c in
  position c1 = length (text c) /\ anchor c1 = length (text c) /\
  c1 = set_cursor c (length (text c)) /\
  keyPressEvent c k =
    match k with
    | Key_Up | Key_Down => _handle_history_navigation c1 k
    | Key_Return | Key_Enter => Some (_handle_command_entry c1)
    | _ => Some (QPlainTextEdit_keyPressEvent c1 k)
    end.
Proof.
  intros H c1. subst c1. rewrite (restrict_cursor_end c H).
  repeat split. unfold keyPressEvent. now rewrite (restrict_cursor_end c H).
Qed.

Lemma C7_cursor_forced_to_end_witness :
  let c := set_cursor debug_console 2 in
  position c < current_line_start_pos c /\
  position (restrict_cursor c) = 6 /\
  keyPressEvent c (Key_Char "x") =
    Some (with_doc debug_console (lit "(pdb) x") 7 7).
Proof.
  assert (H : position (set_cursor debug_console 2)
              < current_line_start_pos (set_cursor debug_console 2))
    by (vm_compute; lia).
  destruct (C7_cursor_forced_to_end (set_cursor debug_console 2)
                                    (Key_Char "x") H) as (P & _ & _ & K).
  split; [exact H|]. split; [exact P|]. rewrite K. reflexivity.
Defined.

(** C4.  From any console whose [history_index] lies in
    [-1, len(history)-1], any number [n] of Up presses returns, leaves the
    history as it is, and leaves [history_index] at
    [min (history_index + n) (len(history) - 1)]: it saturates at the last
    index and never exceeds it. *)
Theorem C4_up_saturates (n : nat) (c : t) :
  index_ok c ->
  exists c', keyPressEvents c (repeat Key_Up n) = Some c' /\
    history c' = history c /\
    history_index c' =
      Z.min (history_index c + Z.of_nat n) (Z.of_nat (length (history c)) - 1) /\
    (history_index c' <= Z.of_nat (length (history c)) - 1)%Z.
Proof.
  revert c. induction n as [|n IH]; intros c I.
  - exists c. unfold index_ok in I. simpl. repeat split; lia.
  - destruct (keyPressEvent_navigation c Key_Up I (or_introl eq_refl))
      as (c1 & E & Hh & _ & _ & _ & _ & Hi).
    assert (I1 : index_ok c1)
      by (unfold index_ok in *; rewrite Hh, Hi; lia).
    destruct (IH c1 I1) as (c' & E' & Hh' & Hi' & _).
    exists c'. cbn [repeat keyPressEvents]. rewrite E.
    split; [exact E'|]. rewrite Hh', Hi', Hh, Hi.
    unfold index_ok in I. repeat split; lia.
Qed.

Lemma C4_up_saturates_witness :
  let c := with_history debug_console [lit "c"; lit "b"; lit "a"] in
  index_ok c /\
  exists c', keyPressEvents c (repeat Key_Up 5) = Some c' /\
    history c' = history c /\
    history_index c' = 2%Z /\ (history_index c' <= 2)%Z.
Proof.
  assert (I : index_ok (with_history debug_console [lit "c"; lit "b"; lit "a"]))
    by (unfold index_ok; simpl; lia).
  split; [exact I|].
  exact (C4_up_saturates 5 _ I).
Defined.



(** Any run of key events keeps a history of trimmed, non-empty entries
    so. *)
Lemma keyPressEvents_entries (ks : list Key) (c c' : t) :
  Forall entry_ok (history c) -> keyPressEvents c ks = Some c' ->
  Forall entry_ok (history c').
Proof.
  revert c. induction ks as [|k r IH]; intros c F; simpl.
  - now intros [= <-].
  - destruct (keyPressEvent c k) as [c1|] eqn:E; [|discriminate].
    apply IH.
    destruct (keyPressEvent_history _ _ _ E) as [->|(cmd & N & S & ->)];
      [exact F|].
    constructor; [now split|exact F].
Qed.

(** With the index in range a run of key events returns. *)
Lemma keyPressEvents_returns (ks : list Key) (c : t) :
  index_ok c -> exists c', keyPressEvents c ks = Some c' /\ index_ok c'.
Proof.
  revert c. induction ks as [|k r IH]; intros c I; simpl.
  - now exists c.
  - destruct (keyPressEvent_returns c k I) as (c1 & E & I1).
    rewrite E. now apply IH.
Qed.

(** C10.  If every history entry is non-empty and equal to its own
    trimmed form, then so is every entry after any key event, and after
    any run of key events, whenever they return; with the index in range
    the key event does return, with the index in range again.  Such
    entries begin and end with a character that is not white space.  The
    console starts with an empty history, so every run of key events on it
    returns with a history of such entries. *)
Theorem C10_history_entries_trimmed (c : t) (k : Key) :
  Forall entry_ok (history c) ->
  (forall c', keyPressEvent c k = Some c' -> Forall entry_ok (history c')) /\
  (forall ks c', keyPressEvents c ks = Some c' -> Forall entry_ok (history c')) /\
  (index_ok c ->
   exists c', keyPressEvent c k = Some c' /\ index_ok c' /\
              Forall entry_ok (history c')) /\
  (forall h, In h (history c) ->
     (exists ch r, h = ch :: r /\ isspace ch = false) /\
     (exists r ch, h = r ++ [ch] /\ isspace ch = false)) /\
  (forall ks, exists c', keyPressEvents init ks = Some c' /\
                         Forall entry_ok (history c')).
Proof.
  intros F.
  assert (S : forall ks c', keyPressEvents c ks = Some c' ->
                            Forall entry_ok (history c'))
    by (intros ks c'; now apply keyPressEvents_entries).
  assert (O : forall c', keyPressEvent c k = Some c' ->
                         Forall entry_ok (history c')).
  { intros c' E. apply (S [k]). simpl. now rewrite E. }
  split; [exact O|]. split; [exact S|]. split; [|split].
  - intros I. destruct (keyPressEvent_returns c k I) as (c' & E & I').
    exists c'. auto.
  - intros h Hin. rewrite Forall_forall in F. now apply entry_ok_ends, F.
  - intros ks.
    assert (I0 : index_ok init) by (unfold index_ok; simpl; lia).
    destruct (keyPressEvents_returns ks init I0) as (c' & E & _).
    exists c'. split; [exact E|].
    apply (keyPressEvents_entries ks init c'); [constructor|exact E].
Qed.

Lemma C10_history_entries_trimmed_witness :
  let c := with_history (with_doc debug_console (lit "(pdb)  bar ") 11 11)
                        [lit "foo"] in
  Forall entry_ok (history c) /\
  exists c', keyPressEvent c Key_Enter = Some c' /\
             history c' = [lit "bar"; lit "foo"] /\
             Forall entry_ok (history c').
Proof.
  assert (F : Forall entry_ok
                (history (with_history
                            (with_doc debug_console (lit "(pdb)  bar ") 11 11)
                            [lit "foo"]))).
  { repeat constructor. discriminate. }
  split; [exact F|].
  eexists. split; [vm_compute; reflexivity|]. split; [reflexivity|].
  apply (proj1 (C10_history_entries_trimmed _ Key_Enter F)).
  vm_compute. reflexivity.
Defined.

(** C5, as stated, fails where the console is not at a prompt.  In a
    debugger run the script prints behind the prompt; after the command
    "n" was entered and the debugger has printed again, Up sets the index
    to 0 and rewrites the line of the cursor only, so the text from
    [line_start] on is the debugger's output followed by the prompt and
    "n", not [history[0]]. *)
Lemma C5_history_recall_counterexample :
  let started :=
    Runner._run_with_debugger (fun _ => true) (lit "python") init (lit "a.py") in
  let c1 := appendPlainText started (lit "-> x = 1" ++ [LF] ++ lit "(Pdb) ") in
  exists c2 c4,
    keyPressEvents c1 [Key_Char "n"; Key_Return] = Some c2 /\
    history c2 = [lit "n"] /\
    keyPressEvent
      (appendPlainText c2 (lit "-> y = 2" ++ [LF] ++ lit "(Pdb) ")) Key_Up
    = Some c4 /\
    history c4 = [lit "n"] /\ history_index c4 = 0%Z /\
    current_line c4 = lit "-> y = 2" ++ [LF] ++ lit "(pdb) n" /\
    current_line c4 <> recalled c4.
Proof.
  intros started c1. do 2 eexists.
  split; [vm_compute; reflexivity|]. split; [reflexivity|].
  split; [vm_compute; reflexivity|]. split; [reflexivity|].
  split; [reflexivity|]. split; [reflexivity|].
  vm_compute. discriminate.
Qed.

(** C5, amended.  With a non-empty history and the index in
    [-1, len(history)-1], Up and Down return, keep the history, and keep
    [history_index] within [-1, len(history)-1]: Up sets it to
    [min (index+1) (len-1)], Down to [max (index-1) (-1)].  When the
    console is at a prompt (the buffer is the scrollback, empty or ending
    in a line break, followed on the last line by the prompt and the
    input; [line_start] lies between prompt and input; prompt and input
    hold no line break; a selection, if any, was begun on that last line)
    and no history entry holds a line break, the current line then is
    [history[history_index]], or empty for the index -1, behind the
    untouched scrollback and prompt.  With history ["foo"] and index -1 at
    the first prompt: Up shows "foo", Up again shows "foo", Down shows the
    empty line with the index at -1. *)
Theorem C5_history_recall (c : t) :
  history c <> [] -> index_ok c ->
  (exists u d,
     keyPressEvent c Key_Up = Some u /\ keyPressEvent c Key_Down = Some d /\
     history u = history c /\ history d = history c /\
     history_index u =
       Z.min (history_index c + 1) (Z.of_nat (length (history c)) - 1) /\
     history_index d = Z.max (history_index c - 1) (-1) /\
     index_ok u /\ index_ok d /\
     (forall sb input,
        at_prompt c sb input -> forallb no_break (history c) = true ->
        at_prompt u sb (recalled u) /\ current_line u = recalled u /\
        at_prompt d sb (recalled d) /\ current_line d = recalled d)) /\
  (let c0 := with_history init [lit "foo"] in
   exists c1 c2 c3,
     keyPressEvent c0 Key_Up = Some c1 /\ current_line c1 = lit "foo" /\
     keyPressEvent c1 Key_Up = Some c2 /\ current_line c2 = lit "foo" /\
     keyPressEvent c2 Key_Down = Some c3 /\ current_line c3 = [] /\
     history_index c3 = (-1)%Z).
Proof.
  intros N I. split.
  - destruct (keyPressEvent_navigation c Key_Up I (or_introl eq_refl))
      as (u & Eu & Hu & _ & _ & _ & _ & Iu).
    destruct (keyPressEvent_navigation c Key_Down I (or_intror eq_refl))
      as (d & Ed & Hd & _ & _ & _ & _ & Id).
    assert (0 < length (history c))
      by (destruct (history c); simpl; [congruence|lia]).
    exists u, d.
    do 6 (split; [assumption|]).
    split; [unfold index_ok in *; rewrite Hu, Iu; lia|].
    split; [unfold index_ok in *; rewrite Hd, Id; lia|].
    intros sb input Hat Hp.
    destruct (keyPressEvent_recall c Key_Up sb input N I Hp Hat (or_introl eq_refl))
      as (u' & Eu' & _ & _ & _ & _ & Au & Lu).
    destruct (keyPressEvent_recall c Key_Down sb input N I Hp Hat (or_intror eq_refl))
      as (d' & Ed' & _ & _ & _ & _ & Ad & Ld).
    assert (u' = u) by congruence. assert (d' = d) by congruence.
    subst u' d'. auto.
  - do 3 eexists.
    split; [vm_compute; reflexivity|]. split; [reflexivity|].
    split; [vm_compute; reflexivity|]. split; [reflexivity|].
    split; [vm_compute; reflexivity|]. split; reflexivity.
Qed.

Lemma C5_history_recall_witness :
  let started :=
    Runner._run_with_debugger (fun _ => true) (lit "python") init (lit "a.py") in
  let ks := [Key_Return; Key_Char "a"; Key_Return; Key_Char "b"; Key_Return;
             Key_Char "x"] in
  exists c sb,
    keyPressEvents started ks = Some c /\
    (history c <> [] /\ index_ok c /\
     forallb no_break (history c) = true /\ at_prompt c sb (lit "x")) /\
    exists u d,
      keyPressEvent c Key_Up = Some u /\ keyPressEvent c Key_Down = Some d /\
      history_index u = 0%Z /\ current_line u = lit "b" /\
      history_index d = (-1)%Z /\ current_line d = [].
Proof.
  intros started ks.
  destruct (keyPressEvents started ks) as [c|] eqn:E;
    [|vm_compute in E; discriminate].
  assert (Ec : history c = [lit "b"; lit "a"] /\ history_index c = (-1)%Z /\
               at_prompt c (firstn 61 (text c)) (lit "x")).
  { vm_compute in E. injection E as <-.
    split; [reflexivity|]. split; [reflexivity|].
    unfold at_prompt. simpl. repeat split; lia. }
  destruct Ec as (Hc & Ic & A).
  exists c, (firstn 61 (text c)). split; [reflexivity|].
  assert (N : history c <> []) by (rewrite Hc; discriminate).
  assert (I : index_ok c) by (unfold index_ok; rewrite Hc, Ic; simpl; lia).
  assert (P : forallb no_break (history c) = true) by (rewrite Hc; reflexivity).
  split; [exact (conj N (conj I (conj P A)))|].
  destruct (C5_history_recall c N I)
    as ((u & d & Eu & Ed & Hu & Hd & Iu & Id & _ & _ & R) & _).
  destruct (R _ (lit "x") A P) as (_ & Lu & _ & Ld).
  rewrite Hc, Ic in Iu. rewrite Ic in Id. simpl in Iu, Id.
  exists u, d.
  split; [exact Eu|]. split; [exact Ed|]. split; [exact Iu|].
  split; [rewrite Lu; unfold recalled; rewrite Iu, Hu, Hc; reflexivity|].
  split; [exact Id|].
  rewrite Ld. unfold recalled. rewrite Id. reflexivity.
Defined.




(** C2, as stated, fails.  On the blank console [setPrompt(">>> ")] leaves
    the editable region [[4, 4)], not [[0, 4)]: the prompt itself lies
    before [line_start].  And with the cursor not at the end of the buffer
    (text "ab", cursor at 0) [line_start] becomes 4 while the buffer ends,
    and the cursor stands, at 6. *)
Lemma C2_setPrompt_region_counterexample :
  (editable_region (setPrompt blank (lit ">>> ")) = (4, 4) /\
   editable_region (setPrompt blank (lit ">>> "))
   <> (length (text blank), length (text blank) + length (lit ">>> "))) /\
  (let c := with_doc blank (lit "ab") 0 0 in
   current_line_start_pos (setPrompt c (lit ">>> ")) = 4 /\
   length (text (setPrompt c (lit ">>> "))) = 6 /\
   position (setPrompt c (lit ">>> ")) = 6).
Proof.
  split; [split; [reflexivity|discriminate]|].
  repeat split.
Qed.

(** C2, amended.  When [setPrompt(p)] is called with the cursor at the end
    of the buffer and [p] holds no carriage return, it appends [p], records
    [line_start = end_of_buffer_at_call + len(p)], which is the new end of
    the buffer, and puts the cursor there.  The prompt occupies
    [[end_at_call, end_at_call + len(p))], before [line_start]; the
    editable region [[line_start, end)] is empty after the call and, in an
    editable console, grows at its end by what the user types. *)
Theorem C2_setPrompt_region (c : t) (p : str) :
  position c = length (text c) -> no_CR p = true ->
  let c' := setPrompt c p in
  let e := length (text c) in
  text c' = text c ++ p /\ prompt c' = p /\
  current_line_start_pos c' = e + length p /\
  current_line_start_pos c' = length (text c') /\
  position c' = current_line_start_pos c' /\
  anchor c' = current_line_start_pos c' /\
  sub (text c') e (e + length p) = p /\
  editable_region c' = (e + length p, e + length p) /\
  (forall s, read_only c = false -> forallb isPrint s = true ->
     exists c'', keyPressEvents c' (map Key_Char s) = Some c'' /\
       text c'' = text c ++ p ++ s /\
       current_line c'' = s /\
       editable_region c'' = (e + length p, e + length p + length s)).
Proof.
  intros P N c' e.
  destruct (setPrompt_result c p) as (Ht & Hp & Hl & Hq & Ha & _ & _ & Hr & _).
  fold c' in Ht, Hp, Hl, Hq, Ha, Hr. clearbody c'.
  rewrite (plain_id p N) in Ht. rewrite P in Hl. fold e in Hl.
  assert (Len : length (text c') = e + length p)
    by (rewrite Ht, length_app; reflexivity).
  split; [exact Ht|]. split; [exact Hp|]. split; [exact Hl|].
  split; [lia|]. split; [lia|]. split; [lia|]. split.
  { rewrite Ht. replace (e + length p) with (length (text c) + length p)
      by reflexivity. apply sub_last. }
  split; [unfold editable_region; now rewrite Hl, Len|].
  intros s RO Pr.
  rewrite (type_at_end s c') by (try assumption; congruence).
  eexists. split; [reflexivity|].
  unfold current_line, editable_region. simpl.
  rewrite Hl, Ht, !length_app. fold e.
  split; [now rewrite <- app_assoc|]. split.
  - rewrite skipn_app, skipn_all2 by (rewrite length_app; fold e; lia).
    rewrite length_app. fold e. now rewrite Nat.sub_diag.
  - reflexivity.
Qed.

Lemma C2_setPrompt_region_witness :
  let c := clear (setReadOnly init false) in
  (position c = length (text c) /\ no_CR (lit "(pdb) ") = true) /\
  text (setPrompt c (lit "(pdb) ")) = lit "(pdb) " /\
  editable_region (setPrompt c (lit "(pdb) ")) = (6, 6) /\
  exists c'', keyPressEvents (setPrompt c (lit "(pdb) ")) (map Key_Char (lit "next"))
              = Some c'' /\
              text c'' = lit "(pdb) next" /\ editable_region c'' = (6, 10).
Proof.
  intros c.
  destruct (C2_setPrompt_region c (lit "(pdb) ") eq_refl eq_refl)
    as (Ht & _ & _ & _ & _ & _ & _ & Hr & Ty).
  split; [split; reflexivity|]. split; [exact Ht|]. split; [exact Hr|].
  destruct (Ty (lit "next") eq_refl eq_refl) as (c'' & E & T & _ & R).
  exists c''. split; [exact E|]. split; [exact T|exact R].
Defined.

(** C1 fails on the code.  Take the console as a debugger run leaves it
    (editable, prompt "(pdb) ", the run banner appended) and press Return:
    a fresh prompt ends the buffer, with the cursor at [line_start] = 51.
    The guard lets Backspace through, and the default handling deletes the
    character at offset 50, the last one of the prompt, before
    [line_start]; typing "x" then writes offset 50 anew. *)
Theorem C1_backspace_erases_prompt :
  let c0 :=
    fold_left Runner.deliver
      (Runner.run_script (fun _ => true) (lit "python") (lit "a.py") None true)
      debug_console in
  exists c1 c2 c3,
    keyPressEvent c0 Key_Return = Some c1 /\
    read_only c1 = false /\
    current_line_start_pos c1 = 51 /\ position c1 = 51 /\
    sub (text c1) 45 51 = lit "(pdb) " /\
    keyPressEvent c1 Key_Backspace = Some c2 /\
    current_line_start_pos c2 = 51 /\ length (text c2) = 50 /\
    sub (text c2) 45 51 = lit "(pdb)" /\
    keyPressEvent c2 (Key_Char "x") = Some c3 /\
    current_line_start_pos c3 = 51 /\
    sub (text c3) 45 51 = lit "(pdb)x" /\
    firstn 51 (text c3) <> firstn 51 (text c1).
Proof.
  intros c0. do 3 eexists.
  split; [vm_compute; reflexivity|]. do 4 (split; [reflexivity|]).
  split; [vm_compute; reflexivity|]. do 3 (split; [reflexivity|]).
  split; [vm_compute; reflexivity|]. do 2 (split; [reflexivity|]).
  vm_compute. discriminate.
Qed.

(** C8, as stated, fails: a list that holds the path twice still holds
    it twice afterwards, since [remove] drops the first occurrence only. *)
Lemma C8_recent_files_counterexample :
  let r := Controller._add_to_recent_files [lit "a.py"; lit "a.py"] (lit "a.py") in
  r = [lit "a.py"; lit "a.py"] /\ ~ NoDup r.
Proof.
  split; [reflexivity|].
  intros D. inversion D as [|y l N _]. apply N. now left.
Qed.

(** C8, amended.  For every list and path, the result has the path at
    index 0, at most 10 entries, and behind the path the old list without
    its first occurrence of the path, in the old order, cut to 9.  For a
    list without duplicates the result has no duplicates either and holds
    the path once, followed by the other old entries, most recent first. *)
Theorem C8_recent_files (l : list str) (x : str) :
  let r := Controller._add_to_recent_files l x in
  nth_error r 0 = Some x /\
  length r <= 10 /\
  r = firstn 10 (x :: Py.remove x l) /\
  (NoDup l ->
   NoDup r /\ r = firstn 10 (x :: Controller.others x l) /\
   ~ In x (tl r)).
Proof.
  intros r. subst r. rewrite add_to_recent_files_eq.
  split; [reflexivity|]. split.
  - pose proof (firstn_le_length 9 (Py.remove x l)) as L.
    cbn [length]. lia.
  - split; [reflexivity|]. intros D.
    rewrite (remove_others x l D).
    assert (N : ~ In x (firstn 9 (Controller.others x l))).
    { intros I. apply (others_not_In x l).
      rewrite <- (firstn_skipn 9 (Controller.others x l)).
      apply in_or_app. now left. }
    split; [|split; [reflexivity|exact N]].
    constructor; [exact N|].
    apply NoDup_firstn. now apply NoDup_filter.
Qed.

Lemma C8_recent_files_witness :
  let l := [lit "a.py"; lit "b.py"; lit "c.py"] in
  NoDup l /\
  Controller._add_to_recent_files l (lit "b.py")
  = [lit "b.py"; lit "a.py"; lit "c.py"] /\
  NoDup (Controller._add_to_recent_files l (lit "b.py")).
Proof.
  intros l.
  assert (D : NoDup l).
  { repeat constructor; simpl; intuition discriminate. }
  split; [exact D|]. split; [reflexivity|].
  exact (proj1 (proj2 (proj2 (proj2 (C8_recent_files l (lit "b.py")))) D)).
Defined.

(** C9.  For a path that does not exist, [run_script] has one effect and
    no other: it emits on [error_signal] the text "Error: File not found
    at '<path>'".  It starts no process and emits nothing on
    [output_signal]; delivered to the console, the text is appended to the
    buffer. *)
Theorem C9_run_script_missing_file
  (file_exists : str -> bool) (sys_executable file_path : str)
  (args : option (list str)) (debugger : bool) (c : t) :
  file_exists file_path = false ->
  let effects :=
    Runner.run_script file_exists sys_executable file_path args debugger in
  let msg := lit "Error: File not found at '" ++ file_path ++ lit "'" in
  effects = [Runner.error_signal msg] /\
  existsb Runner.is_start effects = false /\
  text (fold_left Runner.deliver effects c) = text c ++ plain msg.
Proof.
  intros E effects msg. subst effects. unfold Runner.run_script.
  rewrite E. simpl negb. cbv iota. fold msg.
  split; [reflexivity|]. split; [reflexivity|].
  unfold fold_left, Runner.deliver, appendPlainText, insert_at, set_cursor.
  simpl. now rewrite firstn_all, skipn_all, app_nil_r.
Qed.

Lemma C9_run_script_missing_file_witness :
  let file_exists := fun _ : str => false in
  file_exists (lit "x.py") = false /\
  Runner.run_script file_exists (lit "python") (lit "x.py") None true
  = [Runner.error_signal (lit "Error: File not found at 'x.py'")].
Proof.
  intros file_exists. split; [reflexivity|].
  exact (proj1 (C9_run_script_missing_file file_exists (lit "python")
                 (lit "x.py") None true init eq_refl)).
Defined.

End Claims.

(** ** Runs of key events *)

Section Runs.

(** Whenever Up or Down returns, only the document and the index have
    changed. *)
Lemma history_navigation_fields (c c' : t) (k : Key) :
  _handle_history_navigation c k = Some c' ->
  prompt c' = prompt c /\ read_only c' = read_only c /\
  emitted c' = emitted c /\
  current_line_start_pos c' = current_line_start_pos c.
Proof.
  unfold _handle_history_navigation.
  destruct c as [tx a p ro pr ls h i em]. simpl.
  destruct h as [|h0 h']; [intros [= <-]; now repeat split|].
  match goal with |- context [Z.eqb ?x (-1)] => destruct (Z.eqb x (-1)) end.
  - intros [= <-]. now repeat split.
  - match goal with |- context [getitem ?l ?x] => destruct (getitem l x) end;
      [intros [= <-]; now repeat split|discriminate].
Qed.

(** One key event: Return and Enter emit one trimmed command and may put
    it in front of the history; every other key leaves history and
    emissions alone.  No key changes the prompt or the read-only flag. *)
Lemma keyPressEvent_step (c c' : t) (k : Key) :
  keyPressEvent c k = Some c' ->
  prompt c' = prompt c /\ read_only c' = read_only c /\
  (is_enter k = false -> history c' = history c /\ emitted c' = emitted c) /\
  (is_enter k = true ->
   exists cmd, strip cmd = cmd /\ emitted c' = emitted c ++ [cmd] /\
     (history c' = history c /\ (cmd = [] \/ hd_error (history c) = Some cmd)
      \/ cmd <> [] /\ hd_error (history c) <> Some cmd /\
         history c' = cmd :: history c)).
Proof.
  pose proof (restrict_cursor_fields c) as (_ & Rp & Rr & _ & Rh & _ & Re).
  assert (Ent : _handle_command_entry (restrict_cursor c) = c' ->
    prompt c' = prompt c /\ read_only c' = read_only c /\
    exists cmd, strip cmd = cmd /\ emitted c' = emitted c ++ [cmd] /\
     (history c' = history c /\ (cmd = [] \/ hd_error (history c) = Some cmd)
      \/ cmd <> [] /\ hd_error (history c) <> Some cmd /\
         history c' = cmd :: history c)).
  { intros <-.
    destruct (command_entry_result (restrict_cursor c))
      as (_ & He & Hp & Hr & Hh & _).
    rewrite Hp, Hr, He, Hh, Rp, Rr, Re, Rh. clear He Hp Hr Hh.
    set (cmd := command_of (restrict_cursor c)).
    split; [reflexivity|]. split; [reflexivity|].
    exists cmd. split; [apply strip_idem|]. split; [reflexivity|].
    destruct (truthy cmd) eqn:T.
    - apply truthy_nonempty in T.
      destruct (history c) as [|h0 h'] eqn:Eh.
      + right. repeat split; [exact T|discriminate].
      + destruct (str_eqb h0 cmd) eqn:E.
        * apply str_eqb_eq in E. subst h0. left. split; [reflexivity|now right].
        * right. repeat split; [exact T|].
          intros [= ->]. rewrite (proj2 (str_eqb_eq cmd cmd) eq_refl) in E.
          discriminate.
    - left. split; [reflexivity|left]. destruct cmd; [reflexivity|discriminate]. }
  assert (Nav : _handle_history_navigation (restrict_cursor c) k = Some c' ->
    prompt c' = prompt c /\ read_only c' = read_only c /\
    history c' = history c /\ emitted c' = emitted c).
  { intros N. destruct (history_navigation_fields _ _ _ N) as (A & B & C & _).
    rewrite A, B, C, (history_navigation_history _ _ _ N). auto. }
  assert (Def : QPlainTextEdit_keyPressEvent (restrict_cursor c) k = c' ->
    prompt c' = prompt c /\ read_only c' = read_only c /\
    history c' = history c /\ emitted c' = emitted c).
  { intros <-.
    destruct (default_key_fields (restrict_cursor c) k) as (A & _ & B & C & D & _).
    rewrite A, B, C, D. auto. }
  unfold keyPressEvent.
  destruct k; simpl is_enter; intros E;
    try (destruct (Nav E) as (A & B & C & D);
         repeat split; try assumption; discriminate);
    try (injection E as E; destruct (Ent E) as (A & B & C);
         repeat split; try assumption; try discriminate; intros _; exact C);
    injection E as E; destruct (Def E) as (A & B & C & D);
    repeat split; try assumption; discriminate.
Qed.

Lemma keyPressEvents_app (a b : list Key) (c : t) :
  keyPressEvents c (a ++ b) =
  match keyPressEvents c a with
  | Some c1 => keyPressEvents c1 b
  | None => None
  end.
Proof.
  revert c. induction a as [|k r IH]; intros c; simpl; [reflexivity|].
  destruct (keyPressEvent c k); [apply IH|reflexivity].
Qed.

(** What a returning run of key events does to history and emissions. *)
Lemma keyPressEvents_trace (ks : list Key) (c c' : t) :
  keyPressEvents c ks = Some c' ->
  prompt c' = prompt c /\ read_only c' = read_only c /\
  (exists new, history c' = new ++ history c /\
               length new <= length (filter is_enter ks) /\
               Forall entry_ok new) /\
  (exists cmds, emitted c' = emitted c ++ cmds /\
                length cmds = length (filter is_enter ks) /\
                Forall (fun m => strip m = m) cmds).
Proof.
  revert c. induction ks as [|k r IH]; intros c; simpl.
  - intros [= <-]. split; [reflexivity|]. split; [reflexivity|]. split.
    + exists []. split; [reflexivity|]. split; [simpl; lia|constructor].
    + exists []. rewrite app_nil_r. split; [reflexivity|].
      split; [reflexivity|constructor].
  - destruct (keyPressEvent c k) as [c1|] eqn:E; [|discriminate].
    intros R. destruct (IH c1 R) as (Hp & Hr & (new & Hh & Ln & Fn) & (cmds & He & Lc & Fc)).
    destruct (keyPressEvent_step c c1 k E) as (Sp & Sr & Sn & Se).
    split; [congruence|]. split; [congruence|].
    destruct (is_enter k) eqn:K.
    + destruct (Se eq_refl) as (cmd & St & Em & Hc). split.
      * destruct Hc as [(Same & _)|(Ne & _ & Push)].
        -- exists new. rewrite Hh, Same.
           split; [reflexivity|]. split; [simpl; lia|exact Fn].
        -- exists (new ++ [cmd]). rewrite Hh, Push, <- app_assoc.
           split; [reflexivity|]. split.
           ++ rewrite length_app. simpl. lia.
           ++ apply Forall_app. split; [exact Fn|].
              constructor; [now split|constructor].
      * exists (cmd :: cmds). rewrite He, Em, <- app_assoc. simpl.
        split; [reflexivity|]. split; [lia|now constructor].
    + destruct (Sn eq_refl) as (Same & Em). split.
      * exists new. rewrite Hh, Same. split; [reflexivity|]. split; assumption.
      * exists cmds. rewrite He, Em. split; [reflexivity|]. split; assumption.
Qed.

(** A key event keeps a history without adjacent repeats so. *)
Lemma keyPressEvent_no_repeat (c c' : t) (k : Key) :
  no_repeat (history c) -> keyPressEvent c k = Some c' ->
  no_repeat (history c').
Proof.
  intros N E. destruct (keyPressEvent_step c c' k E) as (_ & _ & Sn & Se).
  destruct (is_enter k).
  - destruct (Se eq_refl) as (cmd & _ & _ & [(Same & _)|(_ & D & Push)]).
    + now rewrite Same.
    + rewrite Push. destruct (history c) as [|h0 h']; [exact I|].
      split; [|exact N]. intros ->. now apply D.
  - now rewrite (proj1 (Sn eq_refl)).
Qed.

Lemma keyPressEvents_no_repeat (ks : list Key) (c c' : t) :
  no_repeat (history c) -> keyPressEvents c ks = Some c' ->
  no_repeat (history c').
Proof.
  revert c. induction ks as [|k r IH]; intros c N E; simpl in E.
  - now injection E as <-.
  - destruct (keyPressEvent c k) as [c1|] eqn:E1; [|discriminate].
    apply (IH c1); [now apply (keyPressEvent_no_repeat c c1 k)|exact E].
Qed.

End Runs.

(** ** Further properties of the console *)

Section ConsoleRuns.

(** X1.  Over any run of key events the history only grows at the front:
    the old entries stay, in their order, behind at most one new entry
    per Return or Enter, each of them trimmed and not empty. *)
Theorem X1_history_grows_at_front (ks : list Key) (c : t) :
  index_ok c ->
  exists c' new, keyPressEvents c ks = Some c' /\
    history c' = new ++ history c /\
    length new <= length (filter is_enter ks) /\
    Forall entry_ok new.
Proof.
  intros I. destruct (keyPressEvents_returns ks c I) as (c' & E & _).
  destruct (keyPressEvents_trace ks c c' E) as (_ & _ & (new & H) & _).
  exists c', new. now split.
Qed.

Lemma X1_history_grows_at_front_witness :
  let c := with_history debug_console [lit "old"] in
  let ks := map Key_Char (lit "ls") ++ [Key_Return; Key_Up; Key_Enter] in
  index_ok c /\
  exists c' new, keyPressEvents c ks = Some c' /\
    history c' = new ++ [lit "old"] /\ length new <= 2.
Proof.
  intros c ks.
  assert (I : index_ok c) by (unfold index_ok; simpl; lia).
  split; [exact I|].
  destruct (X1_history_grows_at_front ks c I) as (c' & new & E & H & L & _).
  exists c', new. split; [exact E|]. split; [exact H|exact L].
Defined.

(** X2.  A history in which no entry equals the one right behind it stays
    so over any run of key events. *)
Theorem X2_history_no_adjacent_repeat (ks : list Key) (c : t) :
  index_ok c -> no_repeat (history c) ->
  exists c', keyPressEvents c ks = Some c' /\ no_repeat (history c').
Proof.
  intros I N. destruct (keyPressEvents_returns ks c I) as (c' & E & _).
  exists c'. split; [exact E|]. now apply (keyPressEvents_no_repeat ks c).
Qed.

Lemma X2_history_no_adjacent_repeat_witness :
  let c := with_history debug_console [lit "ls"] in
  let ks := map Key_Char (lit "ls") ++ [Key_Return]
            ++ map Key_Char (lit "cd") ++ [Key_Return]
            ++ map Key_Char (lit "cd") ++ [Key_Return] in
  (index_ok c /\ no_repeat (history c)) /\
  exists c', keyPressEvents c ks = Some c' /\
             history c' = [lit "cd"; lit "ls"] /\ no_repeat (history c').
Proof.
  intros c ks.
  assert (I : index_ok c) by (unfold index_ok; simpl; lia).
  assert (N : no_repeat (history c)) by exact Logic.I.
  split; [exact (conj I N)|].
  destruct (X2_history_no_adjacent_repeat ks c I N) as (c' & E & R).
  exists c'. split; [exact E|]. split; [|exact R].
  vm_compute in E. injection E as <-. reflexivity.
Defined.

(** X3.  A run of key events emits exactly one command per Return or
    Enter and none for any other key; every emitted command is its own
    trimmed form; and no key event changes the prompt or the read-only
    flag. *)
Theorem X3_one_command_per_enter (ks : list Key) (c : t) :
  index_ok c ->
  exists c' cmds, keyPressEvents c ks = Some c' /\
    emitted c' = emitted c ++ cmds /\
    length cmds = length (filter is_enter ks) /\
    Forall (fun m => strip m = m) cmds /\
    prompt c' = prompt c /\ read_only c' = read_only c.
Proof.
  intros I. destruct (keyPressEvents_returns ks c I) as (c' & E & _).
  destruct (keyPressEvents_trace ks c c' E) as (P & R & _ & (cmds & He & L & F)).
  exists c', cmds.
  split; [exact E|]. split; [exact He|]. split; [exact L|].
  split; [exact F|]. split; assumption.
Qed.

Lemma X3_one_command_per_enter_witness :
  let ks := map Key_Char (lit " a ") ++ [Key_Return; Key_Left; Key_Enter] in
  index_ok debug_console /\
  exists c' cmds, keyPressEvents debug_console ks = Some c' /\
    emitted c' = cmds /\ length cmds = 2.
Proof.
  intros ks.
  assert (I : index_ok debug_console) by (unfold index_ok; simpl; lia).
  split; [exact I|].
  destruct (X3_one_command_per_enter ks debug_console I)
    as (c' & cmds & E & He & L & _).
  exists c', cmds. split; [exact E|]. split; [exact He|exact L].
Defined.

End ConsoleRuns.

Section ConsoleLine.

Lemma appendPlainText_result (c : t) (x : str) :
  let c' := appendPlainText c x in
  text c' = text c ++ plain x /\
  anchor c' = length (text c') /\ position c' = length (text c') /\
  prompt c' = prompt c /\ read_only c' = read_only c /\
  current_line_start_pos c' = current_line_start_pos c /\
  history c' = history c /\ history_index c' = history_index c /\
  emitted c' = emitted c.
Proof.
  destruct c as [tx a q ro pr ls h i em].
  unfold appendPlainText, insert_at, set_cursor. simpl.
  rewrite firstn_all, skipn_all, app_nil_r. now repeat split.
Qed.

(** Text appended behind the input of a prompt counts as input. *)
Lemma appendPlainText_at_prompt (c : t) (sb input x : str) :
  at_prompt c sb input -> no_break x = true ->
  at_prompt (appendPlainText c x) sb (input ++ x).
Proof.
  intros (T & L & B & E & A & P) Bx.
  destruct (appendPlainText_result c x) as (Ht & Ha & Hq & Hp & _ & Hl & _).
  rewrite (plain_id x (no_break_no_CR x Bx)) in Ht.
  unfold at_prompt. rewrite Ha, Hq, Hp, Hl, Ht, T, <- !app_assoc.
  split; [reflexivity|]. split; [exact L|]. split.
  - rewrite app_assoc, no_break_app, B, Bx. reflexivity.
  - split; [exact E|]. rewrite !length_app. lia.
Qed.

(** Return or Enter at a prompt that does not begin with white space. *)
Lemma enter_at_prompt (c : t) (k : Key) (sb input : str) :
  is_enter k = true -> at_prompt c sb input ->
  prompt_ok (prompt c) = true ->
  exists c', keyPressEvent c k = Some c' /\
    emitted c' = emitted c ++ [strip input] /\
    history_index c' = (-1)%Z /\
    (strip input <> [] -> hd_error (history c') = Some (strip input)) /\
    (history c' = history c \/ history c' = strip input :: history c) /\
    at_prompt c' (sb ++ prompt c ++ input ++ [LF]) [] /\
    prompt c' = prompt c /\ read_only c' = read_only c /\
    anchor c' = length (text c') /\ position c' = length (text c').
Proof.
  intros K Hat Hok.
  exists (_handle_command_entry (restrict_cursor c)).
  split; [unfold keyPressEvent; destruct k; try discriminate; reflexivity|].
  destruct (at_prompt_guard c sb input Hat) as (Hat' & Q).
  pose proof (restrict_cursor_fields c) as (_ & Rp & Rr & _ & Rh & _ & Re).
  destruct (command_entry_result (restrict_cursor c))
    as (Hi & He & Hp & Hr & Hh & _ & Hq & Ha & _).
  rewrite (command_of_at_prompt _ sb input Hat' Q) in He, Hh
    by (now rewrite Rp).
  rewrite Rh in Hh.
  split; [now rewrite He, Re|]. split; [exact Hi|]. split.
  { intros Ne. rewrite Hh. apply truthy_nonempty in Ne. rewrite Ne.
    destruct (history c) as [|h0 h']; [reflexivity|].
    destruct (str_eqb h0 (strip input)) eqn:E; [|reflexivity].
    apply str_eqb_eq in E. now subst h0. }
  split.
  { rewrite Hh. destruct (truthy (strip input)); [|now left].
    destruct (history c) as [|h0 h']; [now right|].
    destruct (str_eqb h0 (strip input)); [now left|now right]. }
  split; [rewrite <- Rp; now apply command_entry_at_prompt|].
  split; [congruence|]. split; [congruence|]. split; assumption.
Qed.

Lemma isPrint_no_break (s : str) :
  forallb isPrint s = true -> no_break s = true.
Proof.
  unfold no_break. rewrite !forallb_forall. intros H ch I.
  specialize (H ch I). revert H. clear.
  destruct ch as [[] [] [] [] [] [] [] []]; vm_compute; congruence.
Qed.

Lemma no_break_lstrip (s : str) : no_break s = true -> no_break (lstrip s) = true.
Proof.
  induction s as [|ch r IH]; [reflexivity|]. intros B. simpl.
  destruct (isspace ch); [|exact B].
  apply IH. simpl in B. now apply andb_true_iff in B.
Qed.

Lemma no_break_strip (s : str) : no_break s = true -> no_break (strip s) = true.
Proof.
  intros B. unfold strip, rstrip.
  rewrite no_break_rev. apply no_break_lstrip.
  rewrite no_break_rev. now apply no_break_lstrip.
Qed.

(** Typing at the end of the input of an editable console at a prompt. *)
Lemma type_at_prompt (s : str) (c : t) (sb input : str) :
  at_prompt c sb input -> read_only c = false ->
  anchor c = length (text c) -> position c = length (text c) ->
  forallb isPrint s = true ->
  exists c1, keyPressEvents c (map Key_Char s) = Some c1 /\
    at_prompt c1 sb (input ++ s) /\
    prompt c1 = prompt c /\ read_only c1 = false /\
    history c1 = history c /\ history_index c1 = history_index c /\
    emitted c1 = emitted c /\
    anchor c1 = length (text c1) /\ position c1 = length (text c1).
Proof.
  intros (T & L & B & E & A & P) RO Ha Hq Pr.
  rewrite (type_at_end s c RO Pr Ha Hq). eexists. split; [reflexivity|].
  unfold at_prompt. simpl. rewrite T, <- !app_assoc.
  repeat split; try assumption; try reflexivity.
  - rewrite app_assoc, no_break_app, B. now apply isPrint_no_break.
  - rewrite !length_app. lia.
Qed.

(** Only Return and Enter move [line_start]: to the end of the buffer
    extended by a line feed and the prompt. *)
Lemma keyPressEvent_line_start (c c' : t) (k : Key) :
  keyPressEvent c k = Some c' ->
  current_line_start_pos c' =
    if is_enter k then length (text c) + 1 + length (prompt c)
    else current_line_start_pos c.
Proof.
  pose proof (restrict_cursor_fields c) as (Rt & Rp & _ & Rl & _).
  assert (Ent : _handle_command_entry (restrict_cursor c) = c' ->
                current_line_start_pos c'
                = length (text c) + 1 + length (prompt c)).
  { intros <-.
    destruct (command_entry_result (restrict_cursor c))
      as (_ & _ & _ & _ & _ & _ & _ & _ & Hl).
    now rewrite Hl, Rt, Rp. }
  assert (Def : forall k', QPlainTextEdit_keyPressEvent (restrict_cursor c) k' = c' ->
                current_line_start_pos c' = current_line_start_pos c).
  { intros k' <-.
    destruct (default_key_fields (restrict_cursor c) k') as (_ & _ & _ & _ & _ & Hl).
    now rewrite Hl. }
  assert (Nav : forall k', _handle_history_navigation (restrict_cursor c) k' = Some c' ->
                current_line_start_pos c' = current_line_start_pos c).
  { intros k' N.
    destruct (history_navigation_fields _ _ _ N) as (_ & _ & _ & Hl).
    now rewrite Hl. }
  unfold keyPressEvent. destruct k; simpl is_enter; intros E;
    first [exact (Nav _ E) | injection E as E; exact (Ent E)
          | injection E as E; exact (Def _ E)].
Qed.

(** The command read off a line of a prompt and blank input is empty,
    whatever the prompt. *)
Lemma blank_command (p input : str) :
  forallb isspace input = true ->
  strip (slice_from (length p) (strip (p ++ input))) = [].
Proof.
  intros B. unfold slice_from.
  assert (L : length (strip (p ++ input)) <= length p).
  { unfold strip. rewrite lstrip_app.
    destruct (forallb isspace p).
    - apply lstrip_blank in B. rewrite B. simpl. lia.
    - rewrite rstrip_app, B.
      pose proof (rstrip_length (lstrip p)). pose proof (lstrip_length p). lia. }
  now rewrite skipn_all2.
Qed.

(** At a prompt the command is read off the prompt and the input. *)
Lemma command_of_line (c : t) (sb input : str) :
  at_prompt c sb input -> length sb <= position c ->
  command_of c
  = strip (slice_from (length (prompt c)) (strip (prompt c ++ input))).
Proof.
  intros (T & L & B & E & A & P) Q. unfold command_of.
  rewrite T in *. rewrite !length_app in P.
  rewrite (block_start_last sb (prompt c ++ input) (position c) E B)
    by (rewrite length_app; lia).
  now rewrite (block_end_last sb _ B), sub_last.
Qed.

End ConsoleLine.

Section ConsoleExtras.

(** X4.  At a prompt (the buffer is the scrollback, empty or ending in a
    line break, followed on the last line by the prompt and the input;
    [line_start] lies between prompt and input; prompt and input hold no
    line break; a selection, if any, was begun on that last line), with
    the index in range and no line break in any history entry: the keys
    the console handles itself (Up, Down, Return, Enter), and every
    modelled key when the console is read-only, return and leave the text
    before [line_start] as it was; [line_start] does not move back. *)
Theorem X4_own_handlers_keep_scrollback (c : t) (k : Key) (sb input : str) :
  at_prompt c sb input -> index_ok c ->
  forallb no_break (history c) = true ->
  read_only c = true \/ In k [Key_Up; Key_Down; Key_Return; Key_Enter] ->
  exists c', keyPressEvent c k = Some c' /\
    firstn (current_line_start_pos c) (text c')
    = firstn (current_line_start_pos c) (text c) /\
    current_line_start_pos c <= current_line_start_pos c'.
Proof.
  intros Hat I Hp D.
  destruct (keyPressEvent_returns c k I) as (c' & E & _).
  exists c'. split; [exact E|].
  split; [now apply (scrollback_kept c c' k sb input)|].
  rewrite (keyPressEvent_line_start c c' k E).
  destruct Hat as (T & L & _).
  destruct (is_enter k); [rewrite T, L, !length_app|]; lia.
Qed.

Lemma X4_own_handlers_keep_scrollback_witness :
  let c := with_history (with_doc init (lit ">>> ab") 6 6) [lit "ls"] in
  (at_prompt c [] (lit "ab") /\ index_ok c /\
   forallb no_break (history c) = true /\ read_only c = true) /\
  exists c', keyPressEvent c Key_Up = Some c' /\
    firstn 4 (text c') = lit ">>> ".
Proof.
  intros c.
  assert (A : at_prompt c [] (lit "ab"))
    by (unfold at_prompt; simpl; repeat split; lia).
  assert (I : index_ok c) by (unfold index_ok; simpl; lia).
  split; [exact (conj A (conj I (conj eq_refl eq_refl)))|].
  destruct (X4_own_handlers_keep_scrollback c Key_Up [] (lit "ab") A I eq_refl
              (or_introl eq_refl)) as (c' & E & F & _).
  exists c'. split; [exact E|exact F].
Defined.

(** X5.  In an editable console at a non-empty prompt, with the cursor at
    [line_start] and nothing selected, Backspace returns and removes the
    last character of the prompt: the buffer gets shorter while
    [line_start] stays. *)
Theorem X5_backspace_shortens_prompt (c : t) (sb input : str) :
  at_prompt c sb input -> read_only c = false -> prompt c <> [] ->
  anchor c = position c -> position c = current_line_start_pos c ->
  exists c', keyPressEvent c Key_Backspace = Some c' /\
    text c' = sb ++ removelast (prompt c) ++ input /\
    current_line_start_pos c' = current_line_start_pos c /\
    length (text c') + 1 = length (text c).
Proof.
  intros Hat RO N A P.
  destruct (backspace_at_line_start c sb input Hat RO N A P)
    as (c' & E & T' & L' & _).
  exists c'. split; [exact E|]. split; [exact T'|]. split; [exact L'|].
  destruct Hat as (T & _). rewrite T', T, !length_app.
  assert (length (removelast (prompt c)) + 1 = length (prompt c)).
  { destruct (exists_last N) as (l & a & ->).
    rewrite removelast_last, length_app. reflexivity. }
  lia.
Qed.

Lemma X5_backspace_shortens_prompt_witness :
  (at_prompt debug_console [] [] /\ read_only debug_console = false /\
   prompt debug_console <> [] /\
   anchor debug_console = position debug_console /\
   position debug_console = current_line_start_pos debug_console) /\
  exists c', keyPressEvent debug_console Key_Backspace = Some c' /\
    text c' = lit "(pdb)" /\ current_line_start_pos c' = 6.
Proof.
  assert (A : at_prompt debug_console [] [])
    by (unfold at_prompt; simpl; repeat split; lia).
  assert (N : prompt debug_console <> []) by discriminate.
  split; [exact (conj A (conj eq_refl (conj N (conj eq_refl eq_refl))))|].
  destruct (X5_backspace_shortens_prompt debug_console [] [] A eq_refl N
              eq_refl eq_refl) as (c' & E & T & L & _).
  exists c'. split; [exact E|]. split; [exact T|exact L].
Defined.

(** X6.  Text without line break (no LF, no CR) that [appendPlainText]
    puts behind the input of a prompt, as defined for X4, counts as typed
    input: [line_start] stays, the current line is the input followed by
    that text, and, for a prompt text that does not begin with white
    space, Return or Enter submits the two together, trimmed. *)
Theorem X6_output_joins_input (c : t) (k : Key) (sb input x : str) :
  at_prompt c sb input -> no_break x = true ->
  prompt_ok (prompt c) = true -> is_enter k = true ->
  let c1 := appendPlainText c x in
  current_line_start_pos c1 = current_line_start_pos c /\
  current_line c1 = input ++ x /\
  exists c', keyPressEvent c1 k = Some c' /\
    emitted c' = emitted c ++ [strip (input ++ x)].
Proof.
  intros Hat Bx Hok K c1.
  pose proof (appendPlainText_at_prompt c sb input x Hat Bx) as Hat1.
  destruct (appendPlainText_result c x) as (_ & _ & _ & Hp & _ & Hl & _ & _ & He).
  fold c1 in Hat1, Hp, Hl, He.
  split; [exact Hl|].
  split; [now apply (current_line_at_prompt c1 sb)|].
  destruct (enter_at_prompt c1 k sb (input ++ x) K Hat1) as (c' & E & Em & _);
    [now rewrite Hp|].
  exists c'. split; [exact E|]. now rewrite Em, He.
Qed.

Lemma X6_output_joins_input_witness :
  let c := with_doc debug_console (lit "(pdb) n") 7 7 in
  (at_prompt c [] (lit "n") /\ no_break (lit " -> x = 1") = true /\
   prompt_ok (prompt c) = true /\ is_enter Key_Return = true) /\
  exists c', keyPressEvent (appendPlainText c (lit " -> x = 1")) Key_Return
             = Some c' /\
    emitted c' = [lit "n -> x = 1"].
Proof.
  intros c.
  assert (A : at_prompt c [] (lit "n"))
    by (unfold at_prompt; simpl; repeat split; lia).
  split; [exact (conj A (conj eq_refl (conj eq_refl eq_refl)))|].
  destruct (X6_output_joins_input c Key_Return [] (lit "n") (lit " -> x = 1")
              A eq_refl eq_refl eq_refl) as (_ & _ & c' & E & Em).
  exists c'. split; [exact E|exact Em].
Defined.

(** X7.  Recalling does not keep what was typed: at a prompt, as defined
    for X4, on the live line (index -1) with a non-empty history whose
    entries hold no line break, Up followed by Down returns with the
    index at -1 again and an empty current line, whatever the input was
    before. *)
Theorem X7_recall_discards_input (c : t) (sb input : str) :
  at_prompt c sb input -> history c <> [] -> history_index c = (-1)%Z ->
  forallb no_break (history c) = true ->
  exists c', keyPressEvents c [Key_Up; Key_Down] = Some c' /\
    current_line c' = [] /\ history_index c' = (-1)%Z /\
    history c' = history c /\ at_prompt c' sb [].
Proof.
  intros Hat N Hi Hp.
  assert (Len : 0 < length (history c))
    by (destruct (history c); simpl; [congruence|lia]).
  assert (I : index_ok c) by (unfold index_ok; rewrite Hi; lia).
  destruct (keyPressEvent_recall c Key_Up sb input N I Hp Hat (or_introl eq_refl))
    as (u & Eu & Hu & _ & Iu & Ou & Au & _).
  assert (Nu : history u <> []) by (now rewrite Hu).
  assert (Pu : forallb no_break (history u) = true) by (now rewrite Hu).
  destruct (keyPressEvent_recall u Key_Down sb (recalled u) Nu Ou Pu Au
                                 (or_intror eq_refl))
    as (d & Ed & Hd & _ & Id & _ & Ad & Ld).
  assert (Z : history_index d = (-1)%Z) by (rewrite Id, Iu, Hi; lia).
  assert (R : recalled d = []) by (unfold recalled; now rewrite Z).
  exists d. cbn [keyPressEvents]. rewrite Eu, Ed, Ld, Hd, Hu. rewrite R in Ad.
  split; [reflexivity|]. split; [exact R|]. split; [exact Z|].
  split; [reflexivity|exact Ad].
Qed.

Lemma X7_recall_discards_input_witness :
  let c := with_history (with_doc init (lit ">>> typed") 9 9) [lit "ls"] in
  (at_prompt c [] (lit "typed") /\ history c <> [] /\
   history_index c = (-1)%Z /\ forallb no_break (history c) = true) /\
  exists c', keyPressEvents c [Key_Up; Key_Down] = Some c' /\
             current_line c' = [].
Proof.
  intros c.
  assert (A : at_prompt c [] (lit "typed"))
    by (unfold at_prompt; simpl; repeat split; lia).
  assert (N : history c <> []) by discriminate.
  split; [exact (conj A (conj N (conj eq_refl eq_refl)))|].
  destruct (X7_recall_discards_input c [] (lit "typed") A N eq_refl eq_refl)
    as (c' & E & L & _).
  exists c'. split; [exact E|exact L].
Defined.

(** X8.  At a prompt, Return or Enter on an input of white space only (or
    no input) emits the empty command and leaves the history as it is,
    whatever the prompt text is. *)
Theorem X8_blank_line_submits_nothing (c : t) (k : Key) (sb input : str) :
  at_prompt c sb input -> forallb isspace input = true ->
  is_enter k = true ->
  exists c', keyPressEvent c k = Some c' /\
    emitted c' = emitted c ++ [[]] /\
    history c' = history c /\ history_index c' = (-1)%Z.
Proof.
  intros Hat B K.
  exists (_handle_command_entry (restrict_cursor c)).
  split; [unfold keyPressEvent; destruct k; try discriminate; reflexivity|].
  destruct (at_prompt_guard c sb input Hat) as (Hat' & Q).
  pose proof (restrict_cursor_fields c) as (_ & Rp & _ & _ & Rh & _ & Re).
  destruct (command_entry_result (restrict_cursor c))
    as (Hi & He & _ & _ & Hh & _).
  rewrite (command_of_line _ sb input Hat' Q), (blank_command _ _ B) in He, Hh.
  cbn [truthy] in Hh. now rewrite He, Hh, Re, Rh.
Qed.

Lemma X8_blank_line_submits_nothing_witness :
  let c := with_history (with_doc debug_console (lit "(pdb)    ") 9 9)
                        [lit "ls"] in
  (at_prompt c [] (lit "   ") /\ forallb isspace (lit "   ") = true /\
   is_enter Key_Enter = true) /\
  exists c', keyPressEvent c Key_Enter = Some c' /\
    emitted c' = [[]] /\ history c' = [lit "ls"].
Proof.
  intros c.
  assert (A : at_prompt c [] (lit "   "))
    by (unfold at_prompt; simpl; repeat split; lia).
  split; [exact (conj A (conj eq_refl eq_refl))|].
  destruct (X8_blank_line_submits_nothing c Key_Enter [] (lit "   ") A
              eq_refl eq_refl) as (c' & E & Em & H & _).
  exists c'. split; [exact E|]. split; [exact Em|exact H].
Defined.

(** X9.  What is typed is what is submitted: in an editable console at a
    prompt with the cursor at the end, typing printable characters and
    then Return or Enter emits the input and the typed text together,
    trimmed; if not empty it is the first history entry afterwards, and a
    fresh prompt with an empty input follows. *)
Theorem X9_typed_line_is_submitted (c : t) (k : Key) (sb input s : str) :
  at_prompt c sb input -> read_only c = false ->
  anchor c = length (text c) -> position c = length (text c) ->
  forallb isPrint s = true -> prompt_ok (prompt c) = true ->
  is_enter k = true ->
  exists c', keyPressEvents c (map Key_Char s ++ [k]) = Some c' /\
    emitted c' = emitted c ++ [strip (input ++ s)] /\
    (strip (input ++ s) <> [] ->
     hd_error (history c') = Some (strip (input ++ s))) /\
    at_prompt c' (sb ++ prompt c ++ (input ++ s) ++ [LF]) [].
Proof.
  intros Hat RO Ha Hq Pr Hok K.
  destruct (type_at_prompt s c sb input Hat RO Ha Hq Pr)
    as (c1 & E1 & Hat1 & Hp1 & _ & _ & _ & He1 & _).
  destruct (enter_at_prompt c1 k sb (input ++ s) K Hat1)
    as (c' & E & Em & _ & Hd & _ & Hat' & _); [now rewrite Hp1|].
  exists c'. rewrite keyPressEvents_app, E1. cbn [keyPressEvents]. rewrite E.
  split; [reflexivity|]. split; [now rewrite Em, He1|].
  split; [exact Hd|]. now rewrite <- Hp1.
Qed.

Lemma X9_typed_line_is_submitted_witness :
  (at_prompt debug_console [] [] /\ read_only debug_console = false /\
   anchor debug_console = length (text debug_console) /\
   position debug_console = length (text debug_console) /\
   forallb isPrint (lit " next ") = true /\
   prompt_ok (prompt debug_console) = true /\ is_enter Key_Return = true) /\
  exists c', keyPressEvents debug_console
               (map Key_Char (lit " next ") ++ [Key_Return]) = Some c' /\
    emitted c' = [lit "next"].
Proof.
  assert (A : at_prompt debug_console [] [])
    by (unfold at_prompt; simpl; repeat split; lia).
  split.
  { split; [exact A|]. repeat split. }
  destruct (X9_typed_line_is_submitted debug_console Key_Return [] []
              (lit " next ") A eq_refl eq_refl eq_refl eq_refl eq_refl eq_refl)
    as (c' & E & Em & _).
  exists c'. split; [exact E|exact Em].
Defined.

(** X10.  A command submitted at a prompt comes back on Up: in an editable
    console at a prompt, as defined for X4, with the cursor at the end, a
    prompt text that does not begin with white space and no line break in
    any history entry, after typing printable characters that leave the
    input not blank and pressing Return or Enter, one Up press shows
    exactly the trimmed command as the current line, with the index
    at 0. *)
Theorem X10_submitted_command_is_recalled (c : t) (k : Key) (sb input s : str) :
  at_prompt c sb input -> read_only c = false ->
  anchor c = length (text c) -> position c = length (text c) ->
  forallb isPrint s = true -> prompt_ok (prompt c) = true ->
  is_enter k = true -> forallb no_break (history c) = true ->
  strip (input ++ s) <> [] ->
  exists c', keyPressEvents c (map Key_Char s ++ [k; Key_Up]) = Some c' /\
    current_line c' = strip (input ++ s) /\ history_index c' = 0%Z.
Proof.
  intros Hat RO Ha Hq Pr Hok K Hp Ne.
  destruct (type_at_prompt s c sb input Hat RO Ha Hq Pr)
    as (c1 & E1 & Hat1 & Hp1 & _ & Hh1 & _).
  destruct (enter_at_prompt c1 k sb (input ++ s) K Hat1)
    as (c2 & E2 & _ & Hi2 & Hd2 & Hh2 & Hat2 & _); [now rewrite Hp1|].
  specialize (Hd2 Ne).
  assert (N2 : history c2 <> []) by (destruct (history c2); [discriminate|congruence]).
  assert (Len : 0 < length (history c2))
    by (destruct (history c2); simpl; [congruence|lia]).
  assert (I2 : index_ok c2) by (unfold index_ok; rewrite Hi2; lia).
  assert (P2 : forallb no_break (history c2) = true).
  { destruct Hh2 as [->| ->]; [now rewrite Hh1|].
    simpl. rewrite Hh1, Hp, andb_true_r. apply no_break_strip.
    destruct Hat1 as (_ & _ & B & _). rewrite no_break_app in B.
    now apply andb_true_iff in B. }
  destruct (keyPressEvent_recall c2 Key_Up _ [] N2 I2 P2 Hat2 (or_introl eq_refl))
    as (c3 & E3 & Hh3 & _ & Hi3 & _ & _ & L3).
  assert (Z : history_index c3 = 0%Z) by (rewrite Hi3, Hi2; lia).
  exists c3.
  change (map Key_Char s ++ [k; Key_Up]) with (map Key_Char s ++ [k] ++ [Key_Up]).
  rewrite keyPressEvents_app, E1. cbn [app keyPressEvents]. rewrite E2, E3.
  split; [reflexivity|]. split; [|exact Z].
  rewrite L3. unfold recalled. rewrite Z, Hh3. simpl.
  destruct (history c2) as [|h0 h']; [discriminate|]. now injection Hd2.
Qed.

Lemma X10_submitted_command_is_recalled_witness :
  (at_prompt debug_console [] [] /\ read_only debug_console = false /\
   anchor debug_console = length (text debug_console) /\
   position debug_console = length (text debug_console) /\
   forallb isPrint (lit " next ") = true /\
   prompt_ok (prompt debug_console) = true /\ is_enter Key_Return = true /\
   forallb no_break (history debug_console) = true /\
   strip ([] ++ lit " next ") <> []) /\
  exists c', keyPressEvents debug_console
               (map Key_Char (lit " next ") ++ [Key_Return; Key_Up]) = Some c' /\
    current_line c' = lit "next".
Proof.
  assert (A : at_prompt debug_console [] [])
    by (unfold at_prompt; simpl; repeat split; lia).
  assert (Ne : strip ([] ++ lit " next ") <> []) by (vm_compute; discriminate).
  split.
  { split; [exact A|]. repeat split. exact Ne. }
  destruct (X10_submitted_command_is_recalled debug_console Key_Return [] []
              (lit " next ") A eq_refl eq_refl eq_refl eq_refl eq_refl eq_refl
              eq_refl Ne)
    as (c' & E & L & _).
  exists c'. split; [exact E|exact L].
Defined.

(** X11.  Return and Enter re-arm the prompt from every state, read-only
    or not: for a prompt without carriage return the buffer grows by a
    line feed and the prompt, and [line_start] and the cursor are at the
    end of the buffer, so the current line is empty. *)
Theorem X11_enter_rearms_prompt (c : t) (k : Key) :
  is_enter k = true -> no_CR (prompt c) = true ->
  exists c', keyPressEvent c k = Some c' /\
    text c' = text c ++ [LF] ++ prompt c /\
    current_line_start_pos c' = length (text c') /\
    position c' = length (text c') /\ anchor c' = length (text c') /\
    current_line c' = [] /\ read_only c' = read_only c.
Proof.
  intros K N.
  exists (_handle_command_entry (restrict_cursor c)).
  split; [unfold keyPressEvent; destruct k; try discriminate; reflexivity|].
  pose proof (restrict_cursor_fields c) as (Rt & Rp & Rr & _).
  destruct (command_entry_result (restrict_cursor c))
    as (_ & _ & _ & Hr & _ & Ht & Hq & Ha & Hl).
  rewrite Rt, Rp, (plain_id _ N) in Ht. rewrite Rt, Rp in Hl.
  assert (Len : current_line_start_pos (_handle_command_entry (restrict_cursor c))
                = length (text (_handle_command_entry (restrict_cursor c))))
    by (rewrite Hl, Ht, !length_app; simpl; lia).
  split; [exact Ht|]. split; [exact Len|]. split; [exact Hq|].
  split; [exact Ha|]. split; [|congruence].
  unfold current_line. rewrite Len. apply skipn_all.
Qed.

Lemma X11_enter_rearms_prompt_witness :
  (is_enter Key_Enter = true /\ no_CR (prompt init) = true) /\
  exists c', keyPressEvent init Key_Enter = Some c' /\
    text c' = lit ">>> " ++ [LF] ++ lit ">>> " /\
    current_line_start_pos c' = 9 /\ read_only c' = true.
Proof.
  split; [split; reflexivity|].
  destruct (X11_enter_rearms_prompt init Key_Enter eq_refl eq_refl)
    as (c' & E & T & L & _ & _ & _ & R).
  exists c'. split; [exact E|]. split; [exact T|].
  split; [|exact R]. rewrite L, T. reflexivity.
Defined.

End ConsoleExtras.

(** ** Further properties of the controller *)

Section RecentRuns.

Import Controller.

Lemma others_NoDup (x : str) (l : list str) : NoDup l -> NoDup (others x l).
Proof. intros D. now apply NoDup_filter. Qed.

Lemma dedup_NoDup (l : list str) : NoDup (dedup l).
Proof.
  induction l as [|x r IH]; simpl; constructor.
  - apply others_not_In.
  - now apply others_NoDup.
Qed.

Lemma dedup_id (l : list str) : NoDup l -> dedup l = l.
Proof.
  induction 1 as [|x r N D IH]; simpl; [reflexivity|].
  rewrite IH. now rewrite others_absent.
Qed.

(** In a list without duplicates, the entries other than [x] among the
    first [m] are, up to any length below [m], the first entries other
    than [x] of the whole list. *)
Lemma others_firstn (x : str) (l : list str) :
  NoDup l -> forall n m, n < m ->
  firstn n (others x (firstn m l)) = firstn n (others x l).
Proof.
  induction 1 as [|y r N D IH]; intros n m L.
  - now rewrite firstn_nil.
  - destruct m as [|m]; [lia|]. simpl.
    destruct (str_eqb y x) eqn:E; simpl.
    + apply str_eqb_eq in E. subst y.
      rewrite !others_absent; try assumption.
      * rewrite firstn_firstn. f_equal. lia.
      * intros I. apply N. rewrite <- (firstn_skipn m r).
        apply in_or_app. now left.
    + destruct n as [|n]; [reflexivity|]. simpl. f_equal. apply IH. lia.
Qed.

(** X12.  Starting from a list without duplicates and of at most ten
    entries, after any run of additions the recent-files list is exactly
    the ten most recently added distinct paths, most recent first (older
    entries behind them): the first ten of the additions in reverse
    order followed by the old list, each path kept at its first place.
    It has no duplicates and at most ten entries. *)
Theorem X12_recent_files_most_recent_first (l ps : list str) :
  NoDup l -> length l <= 10 ->
  add_all l ps = firstn 10 (dedup (rev ps ++ l)) /\
  NoDup (add_all l ps) /\ length (add_all l ps) <= 10.
Proof.
  intros D L.
  assert (E : add_all l ps = firstn 10 (dedup (rev ps ++ l))).
  { induction ps as [|x ps IH] using rev_ind.
    - unfold add_all. cbn [fold_left rev app].
      rewrite (dedup_id l D). symmetry. now apply firstn_all2.
    - unfold add_all in *. rewrite fold_left_app. simpl fold_left.
      rewrite IH, rev_unit, add_to_recent_files_eq.
      set (M := dedup (rev ps ++ l)).
      assert (DM : NoDup M) by apply dedup_NoDup.
      rewrite (remove_others x (firstn 10 M)) by (now apply NoDup_firstn).
      rewrite (others_firstn x M DM 9 10) by lia.
      reflexivity. }
  rewrite E. split; [reflexivity|]. split.
  - apply NoDup_firstn, dedup_NoDup.
  - apply firstn_le_length.
Qed.

Lemma X12_recent_files_most_recent_first_witness :
  let l := [lit "a"; lit "b"] in
  let ps := [lit "c"; lit "a"; lit "d"; lit "c"] in
  (NoDup l /\ length l <= 10) /\
  add_all l ps = [lit "c"; lit "d"; lit "a"; lit "b"] /\
  NoDup (add_all l ps).
Proof.
  intros l ps.
  assert (D : NoDup l).
  { repeat constructor; simpl; intuition discriminate. }
  assert (L : length l <= 10) by (simpl; lia).
  split; [exact (conj D L)|].
  destruct (X12_recent_files_most_recent_first l ps D L) as (E & N & _).
  split; [rewrite E; reflexivity|exact N].
Defined.

End RecentRuns.

Section Fonts.

Import Controller.

Lemma font_step_bounds (f : fonts) (a : font_action) :
  (1 <= font_size f)%Z -> Forall (fun z => (1 <= z)%Z) (set_font_size f) ->
  (1 <= font_size (font_step f a))%Z /\
  Forall (fun z => (1 <= z)%Z) (set_font_size (font_step f a)).
Proof.
  intros S F. destruct a; simpl.
  - unfold _increase_font. simpl. split; [lia|].
    apply Forall_app. split; [exact F|]. constructor; [lia|constructor].
  - unfold _decrease_font. destruct (Z.gtb_spec (font_size f) 1); simpl.
    + split; [lia|]. apply Forall_app. split; [exact F|].
      constructor; [lia|constructor].
    + now split.
Qed.

(** X13.  From a font size of at least 1, no run of Increase Font and
    Decrease Font actions takes the font size below 1 or hands the
    interface a size below 1; Decrease Font at size 1 (or below) does
    nothing at all, and Increase Font followed by Decrease Font restores
    the size. *)
Theorem X13_font_size_stays_positive (acts : list font_action) (f : fonts) :
  (1 <= font_size f)%Z -> Forall (fun z => (1 <= z)%Z) (set_font_size f) ->
  let f' := fold_left font_step acts f in
  (1 <= font_size f')%Z /\
  Forall (fun z => (1 <= z)%Z) (set_font_size f') /\
  font_size (_decrease_font (_increase_font f)) = font_size f /\
  (forall g, (font_size g <= 1)%Z -> _decrease_font g = g).
Proof.
  intros S F f'. subst f'.
  assert (B : (1 <= font_size (fold_left font_step acts f))%Z /\
              Forall (fun z => (1 <= z)%Z)
                     (set_font_size (fold_left font_step acts f))).
  { revert f S F. induction acts as [|a r IH]; intros f S F; simpl.
    - now split.
    - destruct (font_step_bounds f a S F) as (S' & F'). now apply IH. }
  destruct B as (B1 & B2).
  split; [exact B1|]. split; [exact B2|]. split.
  - unfold _decrease_font, _increase_font. simpl.
    destruct (Z.gtb_spec (font_size f + 1) 1); simpl; lia.
  - intros g G. unfold _decrease_font.
    destruct (Z.gtb_spec (font_size g) 1); [lia|reflexivity].
Qed.

Lemma X13_font_size_stays_positive_witness :
  let f := mk_fonts 2 [] in
  let acts := [Decrease_Font; Decrease_Font; Decrease_Font; Increase_Font] in
  ((1 <= font_size f)%Z /\ Forall (fun z => (1 <= z)%Z) (set_font_size f)) /\
  fold_left font_step acts f = mk_fonts 2 [1; 2]%Z /\
  (1 <= font_size (fold_left font_step acts f))%Z.
Proof.
  intros f acts.
  assert (S : (1 <= font_size f)%Z) by (simpl; lia).
  assert (F : Forall (fun z => (1 <= z)%Z) (set_font_size f)) by constructor.
  split; [exact (conj S F)|]. split; [reflexivity|].
  exact (proj1 (X13_font_size_stays_positive acts f S F)).
Defined.

End Fonts.

(** ** Replace All *)

Section ReplaceAll.

Lemma startswith_prefix (s old : str) :
  startswith s old = true <-> exists t, s = old ++ t.
Proof.
  revert s. induction old as [|a p IH]; intros s.
  - destruct s; simpl; split; eauto.
  - destruct s as [|b r]; simpl.
    + split; [discriminate|]. intros (t & E). discriminate.
    + rewrite andb_true_iff, Ascii.eqb_eq, IH. split.
      * intros (-> & t & ->). now exists t.
      * intros (t & E). injection E as -> ->. split; [reflexivity|now exists t].
Qed.

(** Where [old] does not occur, nothing is replaced. *)
Lemma replace_from_absent (old new s : str) :
  (forall a b, s <> a ++ old ++ b) -> replace_from old new 0 s = s.
Proof.
  induction s as [|c r IH]; intros N; [reflexivity|].
  cbn [replace_from].
  destruct (startswith (c :: r) old) eqn:E.
  - apply startswith_prefix in E. destruct E as (t & E).
    exfalso. apply (N [] t). exact E.
  - f_equal. apply IH. intros a b E'. apply (N (c :: a) b). now rewrite E'.
Qed.

(** Passing over the rest of an occurrence. *)
Lemma replace_from_skip (old new w t : str) :
  replace_from old new (length w) (w ++ t) = replace_from old new 0 t.
Proof.
  induction w as [|c r IH]; simpl; [reflexivity|exact IH].
Qed.

(** Replacing a non-empty text by itself changes nothing. *)
Lemma replace_from_same (a : ascii) (p : str) (n : nat) (s : str) :
  length s <= n -> replace_from (a :: p) (a :: p) 0 s = s.
Proof.
  revert s. induction n as [|n IH]; intros s L.
  - destruct s; [reflexivity|simpl in L; lia].
  - destruct s as [|c r]; [reflexivity|]. cbn [replace_from].
    destruct (startswith (c :: r) (a :: p)) eqn:E.
    + apply startswith_prefix in E. destruct E as (t & E).
      injection E as -> ->.
      replace (length (a :: p) - 1) with (length p) by (simpl; lia).
      rewrite replace_from_skip, IH; [reflexivity|].
      simpl in L. rewrite length_app in L. lia.
    + f_equal. apply IH. simpl in L. lia.
Qed.

Lemma replace_same (s old : str) : replace s old old = s.
Proof.
  unfold replace. destruct old as [|a p].
  - simpl. induction s as [|c r IH]; simpl; [reflexivity|now rewrite IH].
  - now apply (replace_from_same a p (length s)).
Qed.

Lemma replace_absent (s old new : str) :
  old <> [] -> ~ occurs old s -> replace s old new = s.
Proof.
  intros N O. unfold replace. destruct old as [|a p]; [congruence|].
  apply replace_from_absent. intros x y E. apply O. now exists x, y.
Qed.

(** X15.  Replace All is a plain, case-sensitive substring replacement
    unless "Case sensitive" is unchecked and "Whole word" is checked: in
    the other three settings the options play no part.  In particular
    the content is unchanged where the search text does not occur
    letter for letter (even if it occurs in another case), where the
    replacement equals the search text, and where it is empty. *)
Theorem X15_replace_all_plain_substring
  (re_sub_whole_word : str -> str -> str -> option str)
  (case_sensitive whole_word : bool) (find_text replace_text content : str) :
  find_text <> [] -> case_sensitive = true \/ whole_word = false ->
  let r := FindReplace.replace_all_content re_sub_whole_word case_sensitive
             whole_word find_text replace_text content in
  r = Some (replace content find_text replace_text) /\
  (~ occurs find_text content -> r = Some content) /\
  (replace_text = find_text -> r = Some content) /\
  (content = [] -> r = Some []).
Proof.
  intros N O r.
  assert (E : r = Some (replace content find_text replace_text)).
  { subst r. unfold FindReplace.replace_all_content.
    destruct O as [-> | ->]; [reflexivity|].
    now destruct case_sensitive. }
  rewrite E. split; [reflexivity|]. split; [|split].
  - intros A. now rewrite replace_absent.
  - intros ->. now rewrite replace_same.
  - intros ->. unfold replace. destruct find_text; [congruence|reflexivity].
Qed.

Lemma X15_replace_all_plain_substring_witness :
  let re := fun _ _ _ : str => None in
  (lit "foo" <> [] /\ (false = true \/ false = false)) /\
  FindReplace.replace_all_content re false false (lit "foo") (lit "bar")
    (lit "Foo foo FOO")
  = Some (lit "Foo bar FOO").
Proof.
  intros re.
  assert (N : lit "foo" <> []) by discriminate.
  split; [exact (conj N (or_intror eq_refl))|].
  exact (proj1 (X15_replace_all_plain_substring re false false (lit "foo")
                  (lit "bar") (lit "Foo foo FOO") N (or_intror eq_refl))).
Defined.

End ReplaceAll.

(** ** The title of the current tab *)

Section TabTitle.

Import StatusBar.

Lemma endswith_last (t : str) (c : ascii) : endswith (t ++ [c]) [c] = true.
Proof.
  unfold endswith. rewrite rev_unit. cbn [rev app startswith].
  rewrite Ascii.eqb_refl. now destruct (rev t).
Qed.

Lemma endswith_inv (s : str) (c : ascii) :
  endswith s [c] = true -> exists t, s = t ++ [c].
Proof.
  unfold endswith. intros E. apply startswith_prefix in E.
  destruct E as (u & E). exists (rev u).
  assert (H : s = rev (rev [c] ++ u))
    by (rewrite <- E; symmetry; apply rev_involutive).
  rewrite H. reflexivity.
Qed.

Lemma removesuffix_last (t : str) (c : ascii) :
  removesuffix (t ++ [c]) [c] = t.
Proof.
  unfold removesuffix. rewrite endswith_last, length_app. simpl.
  replace (length t + 1 - 1) with (length t) by lia.
  apply firstn_prefix.
Qed.

(** The title that [_update_status_bar] leaves on the current tab. *)
Lemma update_title (suffix : str -> str) (e : editor) (b : bar) :
  tabText (_update_status_bar suffix (Some e) b) =
  if isModified e then
    if endswith (tabText b) (lit "*") then tabText b else tabText b ++ lit "*"
  else
    if endswith (tabText b) (lit "*") then removesuffix (tabText b) (lit "*")
    else tabText b.
Proof.
  destruct e as [fp m tx cu]. destruct b as [sb cl fl tt].
  unfold _update_status_bar. cbn [tabText isModified].
  destruct m; destruct (endswith tt (lit "*")); reflexivity.
Qed.

(** X16.  For a modified editor, the status-bar update leaves the title of
    the current tab ending in an asterisk: a title that already ends in
    one is kept, any other gets one appended; and a second update changes
    nothing at all. *)
Theorem X16_modified_title_gets_one_asterisk
  (suffix : str -> str) (e : editor) (b : bar) :
  isModified e = true ->
  let b1 := _update_status_bar suffix (Some e) b in
  endswith (tabText b1) (lit "*") = true /\
  (endswith (tabText b) (lit "*") = true -> tabText b1 = tabText b) /\
  (endswith (tabText b) (lit "*") = false -> tabText b1 = tabText b ++ lit "*") /\
  _update_status_bar suffix (Some e) b1 = b1.
Proof.
  intros M b1.
  assert (T : tabText b1 =
              if endswith (tabText b) (lit "*") then tabText b
              else tabText b ++ lit "*")
    by (subst b1; now rewrite update_title, M).
  assert (S : endswith (tabText b1) (lit "*") = true).
  { rewrite T. destruct (endswith (tabText b) (lit "*")) eqn:E; [exact E|].
    apply endswith_last. }
  split; [exact S|]. split; [intros E; now rewrite T, E|].
  split; [intros E; now rewrite T, E|].
  assert (T2 : tabText (_update_status_bar suffix (Some e) b1) = tabText b1)
    by (now rewrite update_title, M, S).
  revert T2. subst b1. unfold _update_status_bar. simpl. rewrite M. simpl.
  now intros ->.
Qed.

Lemma X16_modified_title_gets_one_asterisk_witness :
  let e := mk_editor (Some (lit "a.py")) true (lit "x = 1") 0 in
  let b := mk_bar [] [] [] (lit "a.py") in
  isModified e = true /\
  tabText (_update_status_bar (fun _ => lit "py") (Some e) b) = lit "a.py*" /\
  endswith (tabText (_update_status_bar (fun _ => lit "py") (Some e) b))
           (lit "*") = true.
Proof.
  intros e b. split; [reflexivity|]. split; [reflexivity|].
  exact (proj1 (X16_modified_title_gets_one_asterisk
                  (fun _ => lit "py") e b eq_refl)).
Defined.

(** X17.  For an editor that is not modified, the status-bar update takes
    exactly one trailing asterisk off the title and leaves a title
    without one alone.  So a title that does not end in an asterisk comes
    back unchanged after the editor was modified and saved again. *)
Theorem X17_title_round_trip
  (suffix : str -> str) (dirty clean : editor) (b : bar) :
  isModified dirty = true -> isModified clean = false ->
  endswith (tabText b) (lit "*") = false ->
  tabText (_update_status_bar suffix (Some clean)
             (_update_status_bar suffix (Some dirty) b)) = tabText b /\
  tabText (_update_status_bar suffix (Some clean) b) = tabText b /\
  (forall t b', tabText b' = t ++ lit "*" ->
     tabText (_update_status_bar suffix (Some clean) b') = t).
Proof.
  intros D C E.
  assert (Strip : forall t b', tabText b' = t ++ lit "*" ->
            tabText (_update_status_bar suffix (Some clean) b') = t).
  { intros t b' T. rewrite update_title, C, T.
    change (lit "*") with ["*"%char].
    now rewrite endswith_last, removesuffix_last. }
  split; [|split; [|exact Strip]].
  - apply Strip. now rewrite update_title, D, E.
  - now rewrite update_title, C, E.
Qed.

Lemma X17_title_round_trip_witness :
  let dirty := mk_editor None true (lit "x") 1 in
  let clean := mk_editor None false (lit "x") 1 in
  let b := mk_bar [] [] [] (lit "Untitled 1") in
  (isModified dirty = true /\ isModified clean = false /\
   endswith (tabText b) (lit "*") = false) /\
  tabText (_update_status_bar (fun _ => []) (Some dirty) b) = lit "Untitled 1*" /\
  tabText (_update_status_bar (fun _ => []) (Some clean)
             (_update_status_bar (fun _ => []) (Some dirty) b))
  = lit "Untitled 1".
Proof.
  intros dirty clean b.
  split; [repeat split|]. split; [reflexivity|].
  exact (proj1 (X17_title_round_trip (fun _ => []) dirty clean b
                  eq_refl eq_refl eq_refl)).
Defined.

End TabTitle.

(** ** Settings *)

Section SettingsRoundTrip.

Import Settings.

Variable json : Type.
Variable empty_list : json.
Variable json_dumps : json -> str.
Variable json_loads : str -> option json.
Variable decode : str -> option str.

Lemma value_setValue_same (s : store) (key : str) (v d : qvariant) :
  value (setValue s key v) key d = v.
Proof.
  unfold value, setValue. now rewrite (proj2 (str_eqb_eq key key) eq_refl).
Qed.

(** X18.  The lists are not read back: [save_settings] stores the recent
    files and the tabs as JSON text, and [_load_json_list] decodes byte
    arrays only, so after [save_settings] it returns the empty list for
    both keys, whatever was saved and whatever the store held before;
    the font size and the theme are in the store as saved.  A value
    stored as a byte array would have been decoded. *)
Theorem X18_saved_lists_are_not_read_back
  (s : store) (font_size : Z) (recent_files tabs : json) (dark_mode : bool) :
  let s' := save_settings json json_dumps s font_size recent_files dark_mode tabs in
  _load_json_list json empty_list json_loads decode s' (lit "recent_files")
  = Some empty_list /\
  _load_json_list json empty_list json_loads decode s' (lit "tabs")
  = Some empty_list /\
  value s' (lit "font_size") (QInt 12) = QInt font_size /\
  value s' (lit "dark_mode") (QBool false) = QBool dark_mode /\
  (forall key data text v,
     decode data = Some text -> json_loads text = Some v ->
     _load_json_list json empty_list json_loads decode
       (setValue s' key (QByteArray data)) key = Some v).
Proof.
  intros s'. subst s'. unfold save_settings, _load_json_list. cbv zeta.
  split; [reflexivity|]. split; [reflexivity|].
  split; [reflexivity|]. split; [reflexivity|].
  intros key data text v D L. now rewrite value_setValue_same, D, L.
Qed.

End SettingsRoundTrip.

Lemma X18_saved_lists_are_not_read_back_witness :
  let dumps := fun l : list str => Runner.join (lit ",") l in
  let loads := fun s : str => if str_eqb s (lit "a.py") then Some [lit "a.py"] else None in
  let s' := Settings.save_settings (list str) dumps (fun _ => None) 14
              [lit "a.py"] true [] in
  Settings._load_json_list (list str) [] loads Some s' (lit "recent_files")
  = Some [] /\
  Settings._load_json_list (list str) [] loads Some
    (Settings.setValue s' (lit "recent_files") (Settings.QByteArray (lit "a.py")))
    (lit "recent_files")
  = Some [lit "a.py"].
Proof.
  intros dumps loads s'.
  destruct (X18_saved_lists_are_not_read_back (list str) [] dumps loads Some
              (fun _ => None) 14 [lit "a.py"] [] true)
    as (R & _ & _ & _ & B).
  split; [exact R|].
  exact (B (lit "recent_files") (lit "a.py") (lit "a.py") [lit "a.py"]
           eq_refl eq_refl).
Defined.

Section Navigation.

(** X14.  From any console with the index in range, any number [n] of
    Down presses returns, keeps the history, and leaves [history_index]
    at [max (history_index - n) (-1)]: it comes to rest on the live line.
    Below the oldest entry, Up followed by Down gives the index back. *)
Theorem X14_down_saturates (n : nat) (c : t) :
  index_ok c ->
  (exists c', keyPressEvents c (repeat Key_Down n) = Some c' /\
     history c' = history c /\
     history_index c' = Z.max (history_index c - Z.of_nat n) (-1)) /\
  ((history_index c < Z.of_nat (length (history c)) - 1)%Z ->
   exists c', keyPressEvents c [Key_Up; Key_Down] = Some c' /\
     history_index c' = history_index c).
Proof.
  intros I. split.
  - revert c I. induction n as [|n IH]; intros c I.
    + exists c. unfold index_ok in I. simpl. repeat split. lia.
    + destruct (keyPressEvent_navigation c Key_Down I (or_intror eq_refl))
        as (c1 & E & Hh & _ & _ & _ & _ & Hi).
      assert (I1 : index_ok c1)
        by (unfold index_ok in *; rewrite Hh, Hi; lia).
      destruct (IH c1 I1) as (c' & E' & Hh' & Hi').
      exists c'. cbn [repeat keyPressEvents]. rewrite E.
      split; [exact E'|]. rewrite Hh', Hi', Hh, Hi.
      split; [reflexivity|]. lia.
  - intros L.
    destruct (keyPressEvent_navigation c Key_Up I (or_introl eq_refl))
      as (u & Eu & Hu & _ & _ & _ & _ & Iu).
    assert (I1 : index_ok u)
      by (unfold index_ok in *; rewrite Hu, Iu; lia).
    destruct (keyPressEvent_navigation u Key_Down I1 (or_intror eq_refl))
      as (d & Ed & _ & _ & _ & _ & _ & Id).
    exists d. cbn [keyPressEvents]. rewrite Eu, Ed.
    split; [reflexivity|]. rewrite Id, Iu. unfold index_ok in I. lia.
Qed.

Lemma X14_down_saturates_witness :
  let c := with_history_index
             (with_history init [lit "c"; lit "b"; lit "a"]) 1 in
  index_ok c /\
  (exists c', keyPressEvents c (repeat Key_Down 5) = Some c' /\
              history_index c' = (-1)%Z) /\
  (exists c', keyPressEvents c [Key_Up; Key_Down] = Some c' /\
              history_index c' = 1%Z).
Proof.
  intros c.
  assert (I : index_ok c) by (unfold index_ok; simpl; lia).
  split; [exact I|].
  destruct (X14_down_saturates 5 c I) as ((c' & E & _ & Hi) & R).
  split.
  - exists c'. split; [exact E|exact Hi].
  - apply R. simpl. lia.
Defined.

End Navigation.
